(** * A shallow embedding of the blog application (blog/models.py,
    blog/forms.py, blog/views.py)

    The persistent store is the [Post] table, a finite map from primary
    keys to rows, together with the auto-increment counter.  Views are
    computations in a small state-and-exception monad over that store;
    [handle] plays the part of the framework: it routes a request to its
    view and turns an uncaught exception into a response.

    [django.utils.text.slugify] is library code called by [Post.save]; the
    development is parametric in it (Section [Blog]), and module [Slug]
    gives the canonical derivation as the specification words it. *)

From stdpp Require Import base option list strings gmap fin_maps sorting.
From Stdlib Require Import ZArith Ascii String.

Local Open Scope string_scope.
Local Open Scope Z_scope.

(** ** The canonical derivation of a slug from a title *)

Module Slug.

Definition code (c : ascii) : N := N_of_ascii c.

Definition is_upper (c : ascii) : bool := (65 <=? code c)%N && (code c <=? 90)%N.
Definition is_lower (c : ascii) : bool := (97 <=? code c)%N && (code c <=? 122)%N.
Definition is_digit (c : ascii) : bool := (48 <=? code c)%N && (code c <=? 57)%N.
Definition is_alnum (c : ascii) : bool := is_lower c || is_upper c || is_digit c.

Definition hyphen : ascii := "-"%char.
Definition is_hyphen (c : ascii) : bool := Ascii.eqb c hyphen.

Definition lower (c : ascii) : ascii :=
  if is_upper c then ascii_of_N (code c + 32) else c.

(** One hyphen for each maximal run of non-alphanumeric characters;
    [in_run] tells that the hyphen of the current run is already out. *)
Fixpoint collapse (in_run : bool) (l : list ascii) : list ascii :=
  match l with
  | [] => []
  | c :: l' =>
      if is_alnum c then c :: collapse false l'
      else if in_run then collapse true l'
      else hyphen :: collapse true l'
  end.

Fixpoint lstrip (l : list ascii) : list ascii :=
  match l with
  | [] => []
  | c :: l' => if is_hyphen c then lstrip l' else l
  end.

Definition strip (l : list ascii) : list ascii :=
  reverse (lstrip (reverse (lstrip l))).

Definition slugify_chars (l : list ascii) : list ascii :=
  strip (collapse false (map lower l)).

(** Modelled from the spec: [django.utils.text.slugify] is not among the
    sources; this is the canonical derivation of section 4.1: lowercase,
    runs of non-alphanumeric characters collapsed to single hyphens,
    leading and trailing hyphens stripped. *)
Definition slugify (title : string) : string :=
  string_of_list_ascii (slugify_chars (list_ascii_of_string title)).

Definition cons_head (c : ascii) (F : list (list ascii)) : list (list ascii) :=
  match F with
  | w :: ws => (c :: w) :: ws
  | [] => [[c]]
  end.

(** The fields between the non-alphanumeric characters, empty ones
    included. *)
Fixpoint fields (l : list ascii) : list (list ascii) :=
  match l with
  | [] => [[]]
  | c :: l' => if is_alnum c then cons_head c (fields l') else [] :: fields l'
  end.

Definition nonempty (F : list (list ascii)) : list (list ascii) :=
  filter (λ w, w ≠ []) F.

(** The words: the maximal runs of letters and digits. *)
Definition words (l : list ascii) : list (list ascii) := nonempty (fields l).




End Slug.

(** ** Data model (blog/models.py) *)

Record User := { user_pk : nat; username : string }.

(** A [Post] instance.  [pk], [author] and the two timestamps are [None]
    on an instance that was never saved, as in Python. *)
Record Post := {
  pk : option nat;
  title : string;
  slug : string;
  author : option nat;
  content : string;
  featured_image : option string;
  status : string;
  created_at : option Z;
  updated_at : option Z;
}.

Definition STATUS_CHOICES : list (string * string) :=
  [("draft", "Draft"); ("published", "Published")].

(** [Post()]: every field at its default. *)
Definition new_Post : Post :=
  {| pk := None; title := ""; slug := ""; author := None; content := "";
     featured_image := None; status := "draft";
     created_at := None; updated_at := None |}.

Definition set_pk (v : option nat) (p : Post) : Post :=
  {| pk := v; title := title p; slug := slug p; author := author p;
     content := content p; featured_image := featured_image p;
     status := status p; created_at := created_at p;
     updated_at := updated_at p |}.

Definition set_title (v : string) (p : Post) : Post :=
  {| pk := pk p; title := v; slug := slug p; author := author p;
     content := content p; featured_image := featured_image p;
     status := status p; created_at := created_at p;
     updated_at := updated_at p |}.

Definition set_slug (v : string) (p : Post) : Post :=
  {| pk := pk p; title := title p; slug := v; author := author p;
     content := content p; featured_image := featured_image p;
     status := status p; created_at := created_at p;
     updated_at := updated_at p |}.

Definition set_author (v : option nat) (p : Post) : Post :=
  {| pk := pk p; title := title p; slug := slug p; author := v;
     content := content p; featured_image := featured_image p;
     status := status p; created_at := created_at p;
     updated_at := updated_at p |}.

Definition set_content (v : string) (p : Post) : Post :=
  {| pk := pk p; title := title p; slug := slug p; author := author p;
     content := v; featured_image := featured_image p;
     status := status p; created_at := created_at p;
     updated_at := updated_at p |}.

Definition set_featured_image (v : option string) (p : Post) : Post :=
  {| pk := pk p; title := title p; slug := slug p; author := author p;
     content := content p; featured_image := v;
     status := status p; created_at := created_at p;
     updated_at := updated_at p |}.

Definition set_status (v : string) (p : Post) : Post :=
  {| pk := pk p; title := title p; slug := slug p; author := author p;
     content := content p; featured_image := featured_image p;
     status := v; created_at := created_at p;
     updated_at := updated_at p |}.

Definition set_created_at (v : option Z) (p : Post) : Post :=
  {| pk := pk p; title := title p; slug := slug p; author := author p;
     content := content p; featured_image := featured_image p;
     status := status p; created_at := v;
     updated_at := updated_at p |}.

Definition set_updated_at (v : option Z) (p : Post) : Post :=
  {| pk := pk p; title := title p; slug := slug p; author := author p;
     content := content p; featured_image := featured_image p;
     status := status p; created_at := created_at p;
     updated_at := v |}.

(** ** The persistent store and the monad of views *)

(** The [Post] table, keyed by primary key, and the next key the
    auto-increment column hands out. *)
Record Store := { rows : gmap nat Post; next_id : nat }.

Definition empty_store : Store := {| rows := ∅; next_id := 1 |}.

Inductive Exn :=
| DoesNotExist
| MultipleObjectsReturned
| Http404
| IntegrityError (constraint : string)
| ValueError.

Inductive Result (A : Type) :=
| Ok (a : A)
| Raise (e : Exn).
Arguments Ok {A} a.
Arguments Raise {A} e.

(** A computation reads and writes the store and returns or raises. *)
Definition M (A : Type) : Type := Store → Result A * Store.

#[export] Instance M_ret : MRet M := λ A a s, (Ok a, s).

#[export] Instance M_bind : MBind M := λ A B f m s,
  match m s with
  | (Ok a, s') => f a s'
  | (Raise e, s') => (Raise e, s')
  end.

Definition raise {A} (e : Exn) : M A := λ s, (Raise e, s).

(** ** The object manager: queries in the default ordering, writes *)

(** [Meta.ordering = ['-created_at']]. *)
Definition newest_first (p q : Post) : Prop :=
  default 0 (created_at q) ≤ default 0 (created_at p).

#[export] Instance newest_first_dec : RelDecision newest_first.
Proof. intros p q. unfold newest_first. apply _. Defined.

#[export] Instance newest_first_total : Total newest_first.
Proof. intros p q. unfold newest_first. lia. Qed.

#[export] Instance newest_first_trans : Transitive newest_first.
Proof. intros p q r. unfold newest_first. lia. Qed.

Definition all_posts (s : Store) : list Post :=
  merge_sort newest_first (map_to_list (rows s)).*2.

(** [Post.objects.filter(...)] *)
Definition objects_filter (P : Post → Prop) `{!∀ p, Decision (P p)} : M (list Post) :=
  λ s, (Ok (filter P (all_posts s)), s).

(** [Post.objects.get(...)] *)
Definition objects_get (P : Post → Prop) `{!∀ p, Decision (P p)} : M Post :=
  λ s, match filter P (all_posts s) with
       | [] => (Raise DoesNotExist, s)
       | [p] => (Ok p, s)
       | _ :: _ :: _ => (Raise MultipleObjectsReturned, s)
       end.

Definition get_object_or_404 (P : Post → Prop) `{!∀ p, Decision (P p)} : M Post :=
  λ s, match objects_get P s with
       | (Raise DoesNotExist, s') => (Raise Http404, s')
       | r => r
       end.

(** [unique=True] on [slug]: another row already carries the slug. *)
Definition slug_taken (s : Store) (i : nat) (sl : string) : Prop :=
  map_Exists (λ j q, j ≠ i ∧ slug q = sl) (rows s).

#[export] Instance slug_taken_dec s i sl : Decision (slug_taken s i sl).
Proof. unfold slug_taken. apply _. Defined.

(** [auto_now_add] fills [created_at] on insertion only, [auto_now]
    fills [updated_at] on every save. *)
Definition pre_save (now : Z) (add : bool) (p : Post) : Post :=
  let p := if add then set_created_at (Some now) p else p in
  set_updated_at (Some now) p.

(** [models.Model.save]: update the row of the instance's key when there
    is one, insert otherwise; the column constraints are checked by the
    database, which rejects the write and leaves the table as it was. *)
Definition Model_save (now : Z) (p : Post) : M Post := λ s,
  let i := default (next_id s) (pk p) in
  let add := match rows s !! i with Some _ => false | None => true end in
  let p := set_pk (Some i) (pre_save now add p) in
  match author p with
  | None => (Raise (IntegrityError "blog_post.author_id"), s)
  | Some _ =>
      if decide (slug_taken s i (slug p))
      then (Raise (IntegrityError "blog_post.slug"), s)
      else (Ok p, {| rows := <[i := p]> (rows s);
                     next_id := Nat.max (next_id s) (S i) |})
  end.

(** [models.Model.delete] *)
Definition Model_delete (p : Post) : M unit := λ s,
  match pk p with
  | Some i => (Ok (), {| rows := delete i (rows s); next_id := next_id s |})
  | None => (Raise ValueError, s)
  end.

(** ** Requests and responses *)

Inductive Method := GET | POST.

(** The submitted fields of the post form; a field left blank or absent
    is the empty string, [FILES_featured_image] is the reference the media
    service returned for the uploaded file, if one was uploaded. *)
Record FormData := {
  POST_title : string;
  POST_content : string;
  FILES_featured_image : option string;
  POST_status : string;
}.

(** [user] is [None] for the anonymous user; [now] is the clock reading
    while the request is served. *)
Record Request := {
  method : Method;
  user : option User;
  POST_data : FormData;
  now : Z;
}.

Inductive FieldError := required | max_length | invalid_choice.

(** [PostForm(data, instance=...)]: [data = None] is the unbound form. *)
Record PostForm := { data : option FormData; instance : Post }.

Inductive Context :=
| ctx_posts (posts : list Post)
| ctx_post (post : Post)
| ctx_form (form : PostForm) (form_title : string).

Inductive Response :=
| Rendered (template : string) (context : Context)
| Redirect (to : string) (message : string)
| RedirectToLogin
| NotFound
| ServerError (e : Exn).

Definition render (template : string) (context : Context) : M Response :=
  mret (Rendered template context).

Definition redirect (message to : string) : M Response :=
  mret (Redirect to message).

(** ** The post form (blog/forms.py) *)

(** Modelled from the spec: the form machinery is the framework's; the
    constraints are those of section 4.2 for the four fields of
    [PostForm.Meta.fields], with the bounds the model declares: title and
    content required, title of at most 200 characters, status one of
    [STATUS_CHOICES], image optional. *)
Definition errors (d : FormData) : list (string * FieldError) :=
  (if decide (POST_title d = "") then [("title", required)]
   else if decide (200 < String.length (POST_title d))%nat
        then [("title", max_length)] else [])
  ++ (if decide (POST_content d = "") then [("content", required)] else [])
  ++ (if decide (POST_status d = "") then [("status", required)]
      else if decide (POST_status d ∈ STATUS_CHOICES.*1) then []
           else [("status", invalid_choice)]).

Definition is_valid (form : PostForm) : bool :=
  match data form with
  | Some d => match errors d with [] => true | _ :: _ => false end
  | None => false
  end.

(** The instance with the fields of [Meta.fields], and only those, taken
    from the cleaned data; without an upload the image stays as it is. *)
Definition construct_instance (d : FormData) (p : Post) : Post :=
  set_status (POST_status d)
    (set_featured_image
       (match FILES_featured_image d with
        | Some img => Some img
        | None => featured_image p
        end)
       (set_content (POST_content d) (set_title (POST_title d) p))).

Section Blog.

(** [django.utils.text.slugify] *)
Variable slugify : string → string.

(** The assignment of [Post.save], before the row is written. *)
Definition derive_slug (p : Post) : Post :=
  if bool_decide (slug p = "") || bool_decide (slugify (title p) ≠ slug p)
  then set_slug (slugify (title p)) p
  else p.

(** [Post.save] *)
Definition Post_save (now : Z) (p : Post) : M Post :=
  Model_save now (derive_slug p).

(** [form.save(commit=...)] *)
Definition form_save (now : Z) (commit : bool) (form : PostForm) : M Post :=
  match data form with
  | Some d =>
      if is_valid form then
        let post := construct_instance d (instance form) in
        if commit then Post_save now post else mret post
      else raise ValueError
  | None => raise ValueError
  end.

(** ** Views (blog/views.py) *)

Definition login_required {A} (view : User → Request → A → M Response)
    (request : Request) (a : A) : M Response :=
  match user request with
  | Some u => view u request a
  | None => mret RedirectToLogin
  end.

Definition post_list (request : Request) (_ : unit) : M Response :=
  posts ← objects_filter (λ p, status p = "published");
  render "blog/post_list.html" (ctx_posts posts).

Definition post_detail (request : Request) (url_slug : string) : M Response :=
  post ← get_object_or_404 (λ p, slug p = url_slug ∧ status p = "published");
  render "blog/post_detail.html" (ctx_post post).

Definition post_create (u : User) (request : Request) (_ : unit) : M Response :=
  let create_form form := render "blog/post_form.html" (ctx_form form "Create Post") in
  match method request with
  | POST =>
      let form := {| data := Some (POST_data request); instance := new_Post |} in
      if is_valid form then
        post ← form_save (now request) false form;
        let post := set_author (Some (user_pk u)) post in
        _ ← Post_save (now request) post;
        redirect "Post created successfully!" "my_posts"
      else create_form form
  | GET => create_form {| data := None; instance := new_Post |}
  end.

Definition post_edit (u : User) (request : Request) (url_slug : string) : M Response :=
  let edit_form form := render "blog/post_form.html" (ctx_form form "Edit Post") in
  post ← get_object_or_404 (λ p, slug p = url_slug ∧ author p = Some (user_pk u));
  match method request with
  | POST =>
      let form := {| data := Some (POST_data request); instance := post |} in
      if is_valid form then
        _ ← form_save (now request) true form;
        redirect "Post updated successfully!" "my_posts"
      else edit_form form
  | GET => edit_form {| data := None; instance := post |}
  end.

Definition post_delete (u : User) (request : Request) (url_slug : string) : M Response :=
  post ← get_object_or_404 (λ p, slug p = url_slug ∧ author p = Some (user_pk u));
  match method request with
  | POST =>
      _ ← Model_delete post;
      redirect "Post deleted successfully!" "my_posts"
  | GET => render "blog/post_confirm_delete.html" (ctx_post post)
  end.

Definition my_posts (u : User) (request : Request) (_ : unit) : M Response :=
  posts ← objects_filter (λ p, author p = Some (user_pk u));
  render "blog/my_posts.html" (ctx_posts posts).

(** ** Routing and the framework's handling of exceptions *)

Inductive Route :=
| route_post_list
| route_post_detail (url_slug : string)
| route_post_create
| route_post_edit (url_slug : string)
| route_post_delete (url_slug : string)
| route_my_posts.

Definition view (r : Route) (request : Request) : M Response :=
  match r with
  | route_post_list => post_list request ()
  | route_post_detail sl => post_detail request sl
  | route_post_create => login_required post_create request ()
  | route_post_edit sl => login_required post_edit request sl
  | route_post_delete sl => login_required post_delete request sl
  | route_my_posts => login_required my_posts request ()
  end.

(** A view that raises [Http404] answers not-found; any other uncaught
    exception is a server error. *)
Definition handle (r : Route) (request : Request) (s : Store) : Response * Store :=
  match view r request s with
  | (Ok response, s') => (response, s')
  | (Raise Http404, s') => (NotFound, s')
  | (Raise e, s') => (ServerError e, s')
  end.

(** Serving a sequence of requests, one after the other. *)
Fixpoint serve (rs : list (Route * Request)) (s : Store) : list Response * Store :=
  match rs with
  | [] => ([], s)
  | (r, request) :: rs' =>
      let '(response, s') := handle r request s in
      let '(responses, s'') := serve rs' s' in
      (response :: responses, s'')
  end.

End Blog.


(** [Post.get_absolute_url]: the detail route under the post's slug. *)
Definition get_absolute_url (p : Post) : Route := route_post_detail (slug p).

(** Every row carries the derivation of its title as slug, and has an
    author. *)
Definition slugs_derived (slugify : string → string) (s : Store) : Prop :=
  map_Forall (λ _ p, slug p = slugify (title p) ∧ is_Some (author p)) (rows s).

(** ** Well-formed stores *)

(** What the database guarantees of the table: a row sits under its own
    primary key, no two rows share a slug, and the keys in use are below
    the auto-increment counter. *)
Record wf_store (s : Store) : Prop := {
  wf_pk : ∀ i p, rows s !! i = Some p → pk p = Some i;
  wf_slug : ∀ i j p q,
      rows s !! i = Some p → rows s !! j = Some q → slug p = slug q → i = j;
  wf_fresh : ∀ i p, rows s !! i = Some p → (i < next_id s)%nat;
}.

Ltac unfold_M :=
  unfold render, redirect, raise, mbind, M_bind, mret, M_ret in *.

(** Closed goals are settled by evaluation, decidable ones through
    their decision procedure. *)
Ltac by_evaluation := vm_compute; first [reflexivity | exact I | done].

Ltac by_decision P := apply (bool_decide_unpack P); vm_compute; exact I.

(** ** Sample data *)

Module Sample.

Definition alice : User := {| user_pk := 1; username := "alice" |}.
Definition bob : User := {| user_pk := 2; username := "bob" |}.

Definition no_data : FormData :=
  {| POST_title := ""; POST_content := ""; FILES_featured_image := None;
     POST_status := "" |}.

Definition submit (u : User) (title content status : string) (now : Z) : Request :=
  {| method := POST; user := Some u;
     POST_data := {| POST_title := title; POST_content := content;
                     FILES_featured_image := None; POST_status := status |};
     now := now |}.

Definition get (u : option User) (now : Z) : Request :=
  {| method := GET; user := u; POST_data := no_data; now := now |}.

Definition post (u : User) (now : Z) : Request :=
  {| method := POST; user := Some u; POST_data := no_data; now := now |}.

(** Alice publishes a post and keeps a draft. *)
Definition two_posts : Store :=
  (serve Slug.slugify
     [(route_post_create, submit alice "Hello World" "First post." "published" 10);
      (route_post_create, submit alice "Work in progress" "Not yet." "draft" 20)]
     empty_store).2.

Definition hello_world : Post :=
  {| pk := Some 1%nat; title := "Hello World"; slug := "hello-world";
     author := Some 1%nat; content := "First post."; featured_image := None;
     status := "published"; created_at := Some 10; updated_at := Some 10 |}.

Definition work_in_progress : Post :=
  {| pk := Some 2%nat; title := "Work in progress"; slug := "work-in-progress";
     author := Some 1%nat; content := "Not yet."; featured_image := None;
     status := "draft"; created_at := Some 20; updated_at := Some 20 |}.

(** The first post after Alice retitled it at time 30. *)
Definition hello_again : Post :=
  {| pk := Some 1%nat; title := "Hello Again"; slug := "hello-again";
     author := Some 1%nat; content := "Edited."; featured_image := None;
     status := "draft"; created_at := Some 10; updated_at := Some 30 |}.

(** A row whose slug was written past [Post.save]. *)
Definition hand_made : Post :=
  {| pk := Some 1%nat; title := "Hello World"; slug := "custom";
     author := Some 1%nat; content := "First post."; featured_image := None;
     status := "published"; created_at := Some 10; updated_at := Some 10 |}.

Definition hand_made_store : Store :=
  {| rows := {[ 1%nat := hand_made ]}; next_id := 2 |}.

End Sample.

Lemma wf_empty_store : wf_store empty_store.
Proof. split; simpl; intros *; rewrite lookup_empty; done. Qed.

Lemma elem_of_all_posts (s : Store) (p : Post) :
  p ∈ all_posts s ↔ ∃ i, rows s !! i = Some p.
Proof.
  unfold all_posts. rewrite merge_sort_Permutation, list_elem_of_fmap. split.
  - intros [[i q] [-> Hin]]. exists i. by apply elem_of_map_to_list.
  - intros [i Hi]. exists (i, p). split; [done|]. by apply elem_of_map_to_list.
Qed.

Lemma NoDup_all_posts (s : Store) : wf_store s → NoDup (all_posts s).
Proof.
  intros Hwf. unfold all_posts. rewrite merge_sort_Permutation.
  apply NoDup_fmap_2_strong; [|apply NoDup_map_to_list].
  intros [i p] [j q] Hp%elem_of_map_to_list Hq%elem_of_map_to_list; simpl.
  intros <-. f_equal.
  apply (wf_pk s Hwf) in Hp. apply (wf_pk s Hwf) in Hq. congruence.
Qed.

Lemma NoDup_singleton_all {A} (l : list A) (x : A) :
  NoDup l → x ∈ l → (∀ y, y ∈ l → y = x) → l = [x].
Proof.
  intros Hnd Hin Hall. destruct l as [|a [|b l]].
  - by apply elem_of_nil in Hin.
  - f_equal. apply Hall. left.
  - exfalso. assert (a = x) as -> by (apply Hall; left).
    assert (b = x) as -> by (apply Hall; right; left).
    apply NoDup_cons in Hnd as [Hnotin _]. apply Hnotin. left.
Qed.

Section Queries.

Context (P : Post → Prop) `{!∀ p, Decision (P p)}.

Lemma elem_of_filter_all_posts (s : Store) (p : Post) :
  p ∈ filter P (all_posts s) ↔ P p ∧ ∃ i, rows s !! i = Some p.
Proof. by rewrite list_elem_of_filter, elem_of_all_posts. Qed.

(** No row matches: the lookup raises [Http404]. *)
Lemma get_object_or_404_none (s : Store) :
  (∀ i p, rows s !! i = Some p → ¬ P p) →
  get_object_or_404 P s = (Raise Http404, s).
Proof.
  intros Hnone. unfold get_object_or_404, objects_get.
  destruct (filter P (all_posts s)) as [|p l] eqn:Hf; [done|].
  assert (p ∈ filter P (all_posts s)) as Hin by (rewrite Hf; left).
  apply elem_of_filter_all_posts in Hin as [HP [i Hi]].
  by destruct (Hnone i p Hi).
Qed.

(** The matching rows all sit under one key: the lookup returns it. *)
Lemma get_object_or_404_one (s : Store) (i : nat) (p : Post) :
  wf_store s →
  rows s !! i = Some p → P p →
  (∀ j q, rows s !! j = Some q → P q → j = i) →
  get_object_or_404 P s = (Ok p, s).
Proof.
  intros Hwf Hi HP Huniq. unfold get_object_or_404, objects_get.
  rewrite (NoDup_singleton_all (filter P (all_posts s)) p); [done| | |].
  - apply NoDup_filter, NoDup_all_posts, Hwf.
  - apply elem_of_filter_all_posts. eauto.
  - intros q [HQ [j Hj]]%elem_of_filter_all_posts.
    assert (j = i) as -> by eauto. congruence.
Qed.

(** What a successful lookup returns is a matching row, and the lookup
    never writes. *)
Lemma get_object_or_404_Ok (s s' : Store) (p : Post) :
  get_object_or_404 P s = (Ok p, s') →
  s' = s ∧ P p ∧ ∃ i, rows s !! i = Some p.
Proof.
  unfold get_object_or_404, objects_get.
  destruct (filter P (all_posts s)) as [|q [|q' l]] eqn:Hf; try done.
  intros [= -> ->]. split; [done|].
  apply elem_of_filter_all_posts. rewrite Hf. left.
Qed.

Lemma get_object_or_404_store (s : Store) :
  (get_object_or_404 P s).2 = s.
Proof.
  unfold get_object_or_404, objects_get.
  by destruct (filter P (all_posts s)) as [|q [|q' l]].
Qed.

End Queries.

(** ** Writes *)

Lemma pre_save_fields (now : Z) (add : bool) (p : Post) :
  pk (pre_save now add p) = pk p ∧ title (pre_save now add p) = title p ∧
  slug (pre_save now add p) = slug p ∧ author (pre_save now add p) = author p ∧
  content (pre_save now add p) = content p ∧
  featured_image (pre_save now add p) = featured_image p ∧
  status (pre_save now add p) = status p ∧
  updated_at (pre_save now add p) = Some now ∧
  created_at (pre_save now add p) = if add then Some now else created_at p.
Proof. by destruct add. Qed.

(** A write that is rejected leaves the table as it was. *)
Lemma Model_save_Raise (now : Z) (p : Post) (s s' : Store) (e : Exn) :
  Model_save now p s = (Raise e, s') → s' = s.
Proof.
  unfold Model_save. simpl.
  destruct (author _); [|by intros [= _ ->]].
  destruct (decide _); [by intros [= _ ->]|done].
Qed.

(** An accepted write puts the saved instance under its key. *)
Lemma Model_save_Ok (now : Z) (p p' : Post) (s s' : Store) :
  Model_save now p s = (Ok p', s') →
  let i := default (next_id s) (pk p) in
  let add := match rows s !! i with Some _ => false | None => true end in
  p' = set_pk (Some i) (pre_save now add p) ∧
  is_Some (author p) ∧ ¬ slug_taken s i (slug p) ∧
  rows s' = <[i := p']> (rows s) ∧ next_id s' = Nat.max (next_id s) (S i).
Proof.
  unfold Model_save.
  destruct (rows s !! default (next_id s) (pk p)); simpl;
    (destruct (author p) eqn:Ha; [|done]);
    (destruct (decide _) as [|Hfree]; [done|]);
    intros [= <- <-]; simpl; eauto.
Qed.

(** The two ways a write is rejected, and when it is accepted. *)
Lemma Model_save_run (now : Z) (p : Post) (s : Store) :
  let i := default (next_id s) (pk p) in
  let add := match rows s !! i with Some _ => false | None => true end in
  let p' := set_pk (Some i) (pre_save now add p) in
  Model_save now p s =
    match author p with
    | None => (Raise (IntegrityError "blog_post.author_id"), s)
    | Some _ =>
        if decide (slug_taken s i (slug p))
        then (Raise (IntegrityError "blog_post.slug"), s)
        else (Ok p', {| rows := <[i := p']> (rows s);
                        next_id := Nat.max (next_id s) (S i) |})
    end.
Proof.
  unfold Model_save.
  by destruct (rows s !! default (next_id s) (pk p)).
Qed.

Lemma Model_save_wf (now : Z) (p : Post) (s : Store) :
  wf_store s → wf_store (Model_save now p s).2.
Proof.
  intros Hwf.
  destruct (Model_save now p s) as [[p'|e] s'] eqn:Hsave; simpl;
    [|by apply Model_save_Raise in Hsave as ->].
  apply Model_save_Ok in Hsave as (Hp' & _ & Hfree & Hrows & Hnext).
  set (i := default (next_id s) (pk p)) in *.
  assert (pk p' = Some i) as Hpk by (by rewrite Hp').
  assert (slug p' = slug p) as Hslug.
  { rewrite Hp'. simpl. apply pre_save_fields. }
  split; rewrite ?Hrows, ?Hnext.
  - intros j q [[-> <-]|[Hne Hj]]%lookup_insert_Some; [done|].
    by apply (wf_pk s Hwf).
  - intros j k q r [[<- <-]|[Hnej Hj]]%lookup_insert_Some
                   [[<- <-]|[Hnek Hk]]%lookup_insert_Some Heq; try done.
    + exfalso. apply Hfree. exists k, r. split; [done|]. split; [done|]. congruence.
    + exfalso. apply Hfree. exists j, q. split; [done|]. split; [done|]. congruence.
    + by apply (wf_slug s Hwf j k q r).
  - intros j q [[-> <-]|[Hne Hj]]%lookup_insert_Some; [lia|].
    apply (wf_fresh s Hwf) in Hj. lia.
Qed.

Lemma Model_delete_wf (p : Post) (s : Store) :
  wf_store s → wf_store (Model_delete p s).2.
Proof.
  intros Hwf. unfold Model_delete. destruct (pk p) as [i|]; [|done].
  split; simpl.
  - intros j q [_ Hj]%lookup_delete_Some. by apply (wf_pk s Hwf).
  - intros j k q r [_ Hj]%lookup_delete_Some [_ Hk]%lookup_delete_Some.
    by apply (wf_slug s Hwf).
  - intros j q [_ Hj]%lookup_delete_Some. by apply (wf_fresh s Hwf j q).
Qed.

(** ** Properties of the views *)

Section BlogFacts.

Variable slugify : string → string.

(** After the assignment of [Post.save] the slug is the derivation of
    the title, whatever it was before. *)
Lemma derive_slug_slug (p : Post) : slug (derive_slug slugify p) = slugify (title p).
Proof.
  unfold derive_slug.
  destruct (bool_decide (slug p = "")); [done|].
  destruct (decide (slugify (title p) = slug p)) as [Heq|Hne].
  - rewrite bool_decide_eq_false_2; [done|]. by intros [].
  - by rewrite bool_decide_eq_true_2.
Qed.

Lemma derive_slug_eq (p : Post) :
  derive_slug slugify p = set_slug (slugify (title p)) p.
Proof.
  unfold derive_slug.
  destruct (bool_decide (slug p = "")); [done|].
  destruct (decide (slugify (title p) = slug p)) as [Heq|Hne].
  - rewrite bool_decide_eq_false_2 by (by intros []).
    simpl. destruct p; simpl in *. by rewrite Heq.
  - by rewrite bool_decide_eq_true_2.
Qed.

Lemma Post_save_wf (now : Z) (p : Post) (s : Store) :
  wf_store s → wf_store (Post_save slugify now p s).2.
Proof. apply Model_save_wf. Qed.

(** The view of a route as one case analysis on the request and the
    store. *)
Lemma post_create_run (u : User) (request : Request) (s : Store) :
  post_create slugify u request () s =
    match method request with
    | GET => (Ok (Rendered "blog/post_form.html"
                    (ctx_form {| data := None; instance := new_Post |} "Create Post")), s)
    | POST =>
        let form := {| data := Some (POST_data request); instance := new_Post |} in
        if is_valid form then
          match Post_save slugify (now request)
                  (set_author (Some (user_pk u))
                     (construct_instance (POST_data request) new_Post)) s with
          | (Ok _, s') => (Ok (Redirect "my_posts" "Post created successfully!"), s')
          | (Raise e, s') => (Raise e, s')
          end
        else (Ok (Rendered "blog/post_form.html" (ctx_form form "Create Post")), s)
    end.
Proof.
  unfold post_create, form_save. cbn [data instance].
  destruct (method request); [done|].
  destruct (is_valid _) eqn:Hvalid; [|done].
  unfold_M.
  by destruct (Post_save slugify _ _ s) as [[?|?] ?].
Qed.

Lemma post_edit_run (u : User) (request : Request) (url_slug : string) (s : Store) :
  post_edit slugify u request url_slug s =
    match get_object_or_404
            (λ p, slug p = url_slug ∧ author p = Some (user_pk u)) s with
    | (Raise e, s') => (Raise e, s')
    | (Ok post, s') =>
        match method request with
        | GET => (Ok (Rendered "blog/post_form.html"
                        (ctx_form {| data := None; instance := post |} "Edit Post")), s')
        | POST =>
            let form := {| data := Some (POST_data request); instance := post |} in
            if is_valid form then
              match Post_save slugify (now request)
                      (construct_instance (POST_data request) post) s' with
              | (Ok _, s'') => (Ok (Redirect "my_posts" "Post updated successfully!"), s'')
              | (Raise e, s'') => (Raise e, s'')
              end
            else (Ok (Rendered "blog/post_form.html" (ctx_form form "Edit Post")), s')
        end
    end.
Proof.
  unfold post_edit, form_save. unfold_M.
  destruct (get_object_or_404 _ s) as [[post|e] s']; [|done].
  destruct (method request); [done|]. cbn [data instance].
  destruct (is_valid _) eqn:Hvalid; [|done].
  by destruct (Post_save slugify _ _ s') as [[?|?] ?].
Qed.

Lemma post_delete_run (u : User) (request : Request) (url_slug : string) (s : Store) :
  post_delete u request url_slug s =
    match get_object_or_404
            (λ p, slug p = url_slug ∧ author p = Some (user_pk u)) s with
    | (Raise e, s') => (Raise e, s')
    | (Ok post, s') =>
        match method request with
        | GET => (Ok (Rendered "blog/post_confirm_delete.html" (ctx_post post)), s')
        | POST =>
            match Model_delete post s' with
            | (Ok _, s'') => (Ok (Redirect "my_posts" "Post deleted successfully!"), s'')
            | (Raise e, s'') => (Raise e, s'')
            end
        end
    end.
Proof.
  unfold post_delete. unfold_M.
  destruct (get_object_or_404 _ s) as [[post|e] s']; [|done].
  destruct (method request); [done|].
  by destruct (Model_delete post s') as [[?|?] ?].
Qed.

Lemma handle_store (r : Route) (request : Request) (s : Store) :
  (handle slugify r request s).2 = (view slugify r request s).2.
Proof.
  unfold handle.
  by destruct (view slugify r request s) as [[?|[]] ?].
Qed.

(** Every request leaves the store well formed. *)
Lemma handle_wf (r : Route) (request : Request) (s : Store) :
  wf_store s → wf_store (handle slugify r request s).2.
Proof.
  intros Hwf. rewrite handle_store.
  destruct r; simpl; unfold login_required; try done;
    try (destruct (user request) as [u|]; [|done]).
  - unfold post_detail. unfold_M.
    pose proof (get_object_or_404_store
      (λ p, slug p = url_slug ∧ status p = "published") s) as Hs.
    by destruct (get_object_or_404 _ s) as [[?|?] ?]; simpl in *; subst.
  - rewrite post_create_run. destruct (method request); [done|]. simpl.
    destruct (is_valid _); [|done].
    pose proof (Post_save_wf (now request)
      (set_author (Some (user_pk u))
         (construct_instance (POST_data request) new_Post)) s Hwf) as Hs.
    by destruct (Post_save slugify _ _ s) as [[?|?] ?].
  - rewrite post_edit_run.
    pose proof (get_object_or_404_store
      (λ p, slug p = url_slug ∧ author p = Some (user_pk u)) s) as Hs.
    destruct (get_object_or_404 _ s) as [[post|?] s']; simpl in *; subst; [|done].
    destruct (method request); [done|]. simpl.
    destruct (is_valid _); [|done].
    pose proof (Post_save_wf (now request)
      (construct_instance (POST_data request) post) s Hwf) as Hs.
    by destruct (Post_save slugify _ _ s) as [[?|?] ?].
  - rewrite post_delete_run.
    pose proof (get_object_or_404_store
      (λ p, slug p = url_slug ∧ author p = Some (user_pk u)) s) as Hs.
    destruct (get_object_or_404 _ s) as [[post|?] s']; simpl in *; subst; [|done].
    destruct (method request); [done|].
    pose proof (Model_delete_wf post s Hwf) as Hs.
    by destruct (Model_delete post s) as [[?|?] ?].
  - done.
Qed.

Lemma serve_wf (rs : list (Route * Request)) (s : Store) :
  wf_store s → wf_store (serve slugify rs s).2.
Proof.
  revert s. induction rs as [|[r request] rs IH]; intros s Hwf; [done|].
  simpl. pose proof (handle_wf r request s Hwf) as Hs.
  destruct (handle slugify r request s) as [response s'].
  specialize (IH s' Hs). by destruct (serve slugify rs s').
Qed.

(** *** Keys are not handed out twice *)

Lemma Model_save_keeps_gone (now : Z) (p : Post) (s : Store) (i : nat) :
  rows s !! i = None → (i < next_id s)%nat →
  (pk p = None ∨ ∃ j, pk p = Some j ∧ is_Some (rows s !! j)) →
  rows (Model_save now p s).2 !! i = None ∧
  (i < next_id (Model_save now p s).2)%nat.
Proof.
  intros Hgone Hlt Hpk.
  destruct (Model_save now p s) as [[p'|e] s'] eqn:Hsave; simpl;
    [|by apply Model_save_Raise in Hsave as ->].
  apply Model_save_Ok in Hsave as (_ & _ & _ & -> & ->).
  split; [|lia]. apply lookup_insert_None. split; [done|].
  destruct Hpk as [->|(j & -> & [q Hq])]; simpl; [lia|congruence].
Qed.

(** A key below the counter that holds no row holds none after any
    request. *)
Lemma handle_keeps_gone (r : Route) (request : Request) (s : Store) (i : nat) :
  wf_store s → rows s !! i = None → (i < next_id s)%nat →
  rows (handle slugify r request s).2 !! i = None ∧
  (i < next_id (handle slugify r request s).2)%nat.
Proof.
  intros Hwf Hgone Hlt. rewrite handle_store.
  destruct r; simpl; unfold login_required; try done;
    try (destruct (user request) as [u|]; [|done]).
  - unfold post_detail. unfold_M.
    pose proof (get_object_or_404_store
      (λ p, slug p = url_slug ∧ status p = "published") s) as Hs.
    by destruct (get_object_or_404 _ s) as [[?|?] ?]; simpl in *; subst.
  - rewrite post_create_run. destruct (method request); [done|]. cbn zeta.
    destruct (is_valid _); [|done].
    pose proof (Model_save_keeps_gone (now request)
      (derive_slug slugify (set_author (Some (user_pk u))
         (construct_instance (POST_data request) new_Post))) s i Hgone Hlt) as Hs.
    unfold Post_save.
    destruct (Model_save _ _ s) as [[?|?] ?]; apply Hs; left;
      by rewrite derive_slug_eq.
  - rewrite post_edit_run.
    destruct (get_object_or_404 _ s) as [[post|e] s'] eqn:Hget.
    + apply get_object_or_404_Ok in Hget as (-> & _ & j & Hj).
      destruct (method request); [done|]. cbn zeta.
      destruct (is_valid _); [|done].
      pose proof (Model_save_keeps_gone (now request)
        (derive_slug slugify (construct_instance (POST_data request) post))
        s i Hgone Hlt) as Hs.
      unfold Post_save.
      destruct (Model_save _ _ s) as [[?|?] ?]; apply Hs; right; exists j;
        rewrite derive_slug_eq; simpl; by rewrite (wf_pk s Hwf j post Hj), Hj.
    + pose proof (get_object_or_404_store
        (λ q, slug q = url_slug ∧ author q = Some (user_pk u)) s) as Hs.
      rewrite Hget in Hs. simpl in *. by subst s'.
  - rewrite post_delete_run.
    pose proof (get_object_or_404_store
      (λ q, slug q = url_slug ∧ author q = Some (user_pk u)) s) as Hs.
    destruct (get_object_or_404 _ s) as [[post|e] s']; simpl in *; subst s';
      [|done].
    destruct (method request); [done|].
    unfold Model_delete. destruct (pk post); [|done]. simpl.
    split; [|done]. apply lookup_delete_None. by right.
  - done.
Qed.

Lemma serve_keeps_gone (rs : list (Route * Request)) (s : Store) (i : nat) :
  wf_store s → rows s !! i = None → (i < next_id s)%nat →
  rows (serve slugify rs s).2 !! i = None.
Proof.
  revert s. induction rs as [|[r request] rs IH]; intros s Hwf Hgone Hlt; [done|].
  simpl. pose proof (handle_wf r request s Hwf) as Hwf'.
  destruct (handle_keeps_gone r request s i Hwf Hgone Hlt) as [Hgone' Hlt'].
  destruct (handle slugify r request s) as [response s'].
  specialize (IH s' Hwf' Hgone' Hlt'). by destruct (serve slugify rs s').
Qed.

(** *** Lookups by slug *)

(** No row of the wanted slug passes the filter: the view answers
    not-found and writes nothing. *)
Lemma post_detail_hidden (s : Store) (i : nat) (p : Post) (request : Request) :
  wf_store s → rows s !! i = Some p → status p ≠ "published" →
  handle slugify (route_post_detail (slug p)) request s = (NotFound, s).
Proof.
  intros Hwf Hi Hstatus. unfold handle, view, post_detail. unfold_M.
  rewrite get_object_or_404_none; [done|].
  intros j q Hj [Hslug Hpub].
  assert (j = i) as -> by (by eapply (wf_slug s Hwf)).
  congruence.
Qed.

Lemma post_detail_missing (s : Store) (url_slug : string) (request : Request) :
  (∀ j q, rows s !! j = Some q → slug q ≠ url_slug) →
  handle slugify (route_post_detail url_slug) request s = (NotFound, s).
Proof.
  intros Hnone. unfold handle, view, post_detail. unfold_M.
  rewrite get_object_or_404_none; [done|].
  intros j q Hj [Hslug _]. by eapply Hnone.
Qed.

(** The owner filter of [post_edit] and [post_delete] finds nothing. *)
Lemma owner_lookup_none (s : Store) (u : User) (url_slug : string) :
  (∀ j q, rows s !! j = Some q → slug q = url_slug → author q ≠ Some (user_pk u)) →
  get_object_or_404 (λ p, slug p = url_slug ∧ author p = Some (user_pk u)) s
  = (Raise Http404, s).
Proof.
  intros Hnone. apply get_object_or_404_none.
  intros j q Hj [Hslug Hauthor]. by eapply Hnone.
Qed.

Lemma owner_lookup_one (s : Store) (u : User) (i : nat) (p : Post) :
  wf_store s → rows s !! i = Some p → author p = Some (user_pk u) →
  get_object_or_404 (λ q, slug q = slug p ∧ author q = Some (user_pk u)) s
  = (Ok p, s).
Proof.
  intros Hwf Hi Hauthor. apply (get_object_or_404_one _ s i p); try done.
  intros j q Hj [Hslug _]. by eapply (wf_slug s Hwf).
Qed.

Lemma edit_delete_not_found (s : Store) (u : User) (url_slug : string)
    (request : Request) :
  (∀ j q, rows s !! j = Some q → slug q = url_slug → author q ≠ Some (user_pk u)) →
  user request = Some u →
  handle slugify (route_post_edit url_slug) request s = (NotFound, s) ∧
  handle slugify (route_post_delete url_slug) request s = (NotFound, s).
Proof.
  intros Hnone Huser. unfold handle, view, login_required. rewrite Huser.
  rewrite post_edit_run, post_delete_run.
  by rewrite owner_lookup_none.
Qed.

(** C9: a create or edit submission whose validation fails leaves the
    store exactly as it was, so no post is created and the edited post
    keeps every field; the answer is the form again, never a redirect.
    A store that did change was changed by a valid POST. *)
Theorem invalid_form_leaves_store (request : Request) (s : Store) :
  errors (POST_data request) ≠ [] →
  (handle slugify route_post_create request s).2 = s ∧
  (∀ url_slug, (handle slugify (route_post_edit url_slug) request s).2 = s) ∧
  (∀ url_slug r to message,
      r = route_post_create ∨ r = route_post_edit url_slug →
      (handle slugify r request s).1 ≠ Redirect to message).
Proof.
  intros Herr.
  assert (∀ post, is_valid {| data := Some (POST_data request); instance := post |}
                  = false) as Hinvalid.
  { intros post. unfold is_valid. simpl. by destruct (errors _). }
  assert (∀ url_slug,
    (handle slugify (route_post_edit url_slug) request s).2 = s ∧
    ∀ to message,
      (handle slugify (route_post_edit url_slug) request s).1 ≠ Redirect to message)
    as Hedit.
  { intros url_slug. unfold handle, view, login_required.
    destruct (user request) as [u|]; [|done].
    rewrite post_edit_run.
    pose proof (get_object_or_404_store
      (λ p, slug p = url_slug ∧ author p = Some (user_pk u)) s) as Hs.
    destruct (get_object_or_404 _ s) as [[post|e] s']; simpl in Hs; subst s'.
    - destruct (method request); [done|]. cbn zeta. by rewrite Hinvalid.
    - by destruct e. }
  assert ((handle slugify route_post_create request s).2 = s ∧
    ∀ to message,
      (handle slugify route_post_create request s).1 ≠ Redirect to message)
    as Hcreate.
  { unfold handle, view, login_required.
    destruct (user request) as [u|]; [|done].
    rewrite post_create_run.
    destruct (method request); [done|]. cbn zeta. by rewrite Hinvalid. }
  split; [apply Hcreate|]. split; [intros; apply Hedit|].
  intros url_slug r to message [->| ->]; [apply Hcreate|apply Hedit].
Qed.

(** C4: an authenticated user who is not the author of a stored post gets
    not-found from both the edit and the delete view for that post's
    slug, whatever the method and the submitted data, and the store, the
    post included, stays as it was; an anonymous request does not reach
    the lookup and is sent to the login page. *)
Theorem non_owner_edit_delete_not_found (s : Store) (i : nat) (p : Post)
    (u : User) (request : Request) :
  wf_store s → rows s !! i = Some p →
  author p ≠ Some (user_pk u) → user request = Some u →
  handle slugify (route_post_edit (slug p)) request s = (NotFound, s) ∧
  handle slugify (route_post_delete (slug p)) request s = (NotFound, s) ∧
  (∀ anonymous, user anonymous = None →
     handle slugify (route_post_edit (slug p)) anonymous s = (RedirectToLogin, s) ∧
     handle slugify (route_post_delete (slug p)) anonymous s = (RedirectToLogin, s)).
Proof.
  intros Hwf Hi Hauthor Huser.
  destruct (edit_delete_not_found s u (slug p) request) as [Hedit Hdelete];
    [|done|].
  - intros j q Hj Hslug.
    assert (j = i) as -> by (by eapply (wf_slug s Hwf)). congruence.
  - split; [done|]. split; [done|].
    intros anonymous Hanonymous.
    unfold handle, view, login_required. by rewrite Hanonymous.
Qed.

(** C3: a stored draft is not among the posts the public list renders,
    the public detail view answers not-found for its slug, and whatever
    the list or the detail view does return has status published. *)
Theorem draft_hidden_from_public (s : Store) (i : nat) (p : Post)
    (request : Request) :
  wf_store s → rows s !! i = Some p → status p = "draft" →
  (∃ posts,
      handle slugify route_post_list request s
      = (Rendered "blog/post_list.html" (ctx_posts posts), s) ∧
      (p ∉ posts) ∧ (∀ q, q ∈ posts → status q = "published")) ∧
  handle slugify (route_post_detail (slug p)) request s = (NotFound, s) ∧
  (∀ url_slug template q s',
      handle slugify (route_post_detail url_slug) request s
      = (Rendered template (ctx_post q), s') →
      status q = "published" ∧ slug q = url_slug).
Proof.
  intros Hwf Hi Hdraft. split; [|split].
  - exists (filter (λ q, status q = "published") (all_posts s)).
    split; [done|]. split.
    + intros [Hpub _]%list_elem_of_filter. congruence.
    + by intros q [Hpub _]%list_elem_of_filter.
  - apply (post_detail_hidden s i); [done..|]. by rewrite Hdraft.
  - intros url_slug template q s'. unfold handle, view, post_detail. unfold_M.
    destruct (get_object_or_404 _ s) as [[post|e] s''] eqn:Hget.
    + apply get_object_or_404_Ok in Hget as (_ & [Hslug Hpub] & _).
      by intros [= _ <- _].
    + by destruct e.
Qed.

(** C10: the detail view answers not-found for a stored draft also when
    the request comes from the draft's author: the view never looks at
    the requesting user. *)
Theorem draft_detail_hidden_from_author (s : Store) (i : nat) (p : Post)
    (u : User) (request : Request) :
  wf_store s → rows s !! i = Some p → status p = "draft" →
  author p = Some (user_pk u) → user request = Some u →
  handle slugify (route_post_detail (slug p)) request s = (NotFound, s) ∧
  (∀ url_slug other,
      handle slugify (route_post_detail url_slug) other s
      = handle slugify (route_post_detail url_slug) request s).
Proof.
  intros Hwf Hi Hdraft _ _. split; [|done].
  apply (post_detail_hidden s i); [done..|]. by rewrite Hdraft.
Qed.

(** *** Accepted and rejected writes of the create and edit views *)

Lemma is_valid_bound (d : FormData) (post : Post) :
  is_valid {| data := Some d; instance := post |} = true ↔ errors d = [].
Proof. unfold is_valid. simpl. by destruct (errors d). Qed.

(** A valid create submission by a logged-in user: the row that is
    written, or the rejection by the unique constraint. *)
Lemma post_create_valid_run (s : Store) (u : User) (request : Request) :
  wf_store s → user request = Some u → method request = POST →
  errors (POST_data request) = [] →
  let d := POST_data request in
  let row :=
    {| pk := Some (next_id s); title := POST_title d;
       slug := slugify (POST_title d); author := Some (user_pk u);
       content := POST_content d; featured_image := FILES_featured_image d;
       status := POST_status d;
       created_at := Some (now request); updated_at := Some (now request) |} in
  handle slugify route_post_create request s =
    if decide (slug_taken s (next_id s) (slugify (POST_title d)))
    then (ServerError (IntegrityError "blog_post.slug"), s)
    else (Redirect "my_posts" "Post created successfully!",
          {| rows := <[next_id s := row]> (rows s); next_id := S (next_id s) |}).
Proof.
  intros Hwf Huser Hmethod Hvalid d row.
  unfold handle, view, login_required. rewrite Huser, post_create_run, Hmethod.
  cbn zeta. rewrite (proj2 (is_valid_bound _ _) Hvalid).
  unfold Post_save. rewrite derive_slug_eq, Model_save_run. simpl.
  assert (rows s !! next_id s = None) as ->.
  { destruct (rows s !! next_id s) as [q|] eqn:Hq; [|done].
    apply (wf_fresh s Hwf) in Hq. lia. }
  fold d. destruct (decide (slug_taken s (next_id s) (slugify (POST_title d))));
    [done|].
  subst row. unfold construct_instance, pre_save, set_pk. simpl.
  f_equal. f_equal; [|lia]. f_equal.
  by destruct (FILES_featured_image d).
Qed.

(** A valid edit submission by the author of a stored post. *)
Lemma post_edit_valid_run (s : Store) (i : nat) (p : Post) (u : User)
    (request : Request) :
  wf_store s → rows s !! i = Some p → author p = Some (user_pk u) →
  user request = Some u → method request = POST →
  errors (POST_data request) = [] →
  let d := POST_data request in
  let row :=
    {| pk := Some i; title := POST_title d;
       slug := slugify (POST_title d); author := author p;
       content := POST_content d;
       featured_image := match FILES_featured_image d with
                         | Some img => Some img
                         | None => featured_image p
                         end;
       status := POST_status d;
       created_at := created_at p; updated_at := Some (now request) |} in
  handle slugify (route_post_edit (slug p)) request s =
    if decide (slug_taken s i (slugify (POST_title d)))
    then (ServerError (IntegrityError "blog_post.slug"), s)
    else (Redirect "my_posts" "Post updated successfully!",
          {| rows := <[i := row]> (rows s); next_id := next_id s |}).
Proof.
  intros Hwf Hi Hauthor Huser Hmethod Hvalid d row.
  unfold handle, view, login_required. rewrite Huser, post_edit_run.
  rewrite (owner_lookup_one s u i p Hwf Hi Hauthor), Hmethod.
  cbn zeta. rewrite (proj2 (is_valid_bound _ _) Hvalid).
  unfold Post_save. rewrite derive_slug_eq, Model_save_run. simpl.
  rewrite (wf_pk s Hwf i p Hi), Hauthor. simpl. rewrite Hi.
  fold d. destruct (decide (slug_taken s i (slugify (POST_title d)))); [done|].
  pose proof (wf_fresh s Hwf i p Hi) as Hfresh.
  subst row. f_equal. f_equal. lia.
Qed.

(** The delete view on a post of the requesting user. *)
Lemma post_delete_own_run (s : Store) (i : nat) (p : Post) (u : User)
    (request : Request) :
  wf_store s → rows s !! i = Some p → author p = Some (user_pk u) →
  user request = Some u →
  handle slugify (route_post_delete (slug p)) request s =
    match method request with
    | GET => (Rendered "blog/post_confirm_delete.html" (ctx_post p), s)
    | POST => (Redirect "my_posts" "Post deleted successfully!",
               {| rows := delete i (rows s); next_id := next_id s |})
    end.
Proof.
  intros Hwf Hi Hauthor Huser.
  unfold handle, view, login_required. rewrite Huser, post_delete_run.
  rewrite (owner_lookup_one s u i p Hwf Hi Hauthor).
  destruct (method request); [done|].
  unfold Model_delete. by rewrite (wf_pk s Hwf i p Hi).
Qed.


(** C7, as the code has it: a valid create submission of a logged-in user
    whose derived slug no stored post carries writes one new row, with
    the submitted fields, the derived slug and the requesting user as
    author, and redirects to the user's posts; an invalid submission
    gets the form back, bound to the submitted data and its errors, and
    nothing is written. *)
Theorem post_create_outcomes (s : Store) (u : User) (request : Request) :
  wf_store s → user request = Some u → method request = POST →
  let d := POST_data request in
  (errors d = [] →
   (∀ j q, rows s !! j = Some q → slug q ≠ slugify (POST_title d)) →
   ∃ row,
     handle slugify route_post_create request s
     = (Redirect "my_posts" "Post created successfully!",
        {| rows := <[next_id s := row]> (rows s); next_id := S (next_id s) |}) ∧
     rows s !! next_id s = None ∧
     author row = Some (user_pk u) ∧ title row = POST_title d ∧
     content row = POST_content d ∧ status row = POST_status d ∧
     featured_image row = FILES_featured_image d ∧
     slug row = slugify (POST_title d)) ∧
  (errors d ≠ [] →
   handle slugify route_post_create request s
   = (Rendered "blog/post_form.html"
        (ctx_form {| data := Some d; instance := new_Post |} "Create Post"), s)).
Proof.
  intros Hwf Huser Hmethod d. split.
  - intros Hvalid Hfree.
    rewrite (post_create_valid_run s u request Hwf Huser Hmethod Hvalid).
    cbn zeta. fold d.
    destruct (decide (slug_taken s (next_id s) (slugify (POST_title d))))
      as [(j & q & Hj & _ & Hslug)|_]; [by destruct (Hfree j q Hj)|].
    eexists. split; [done|]. split; [|done].
    destruct (rows s !! next_id s) as [q|] eqn:Hq; [|done].
    apply (wf_fresh s Hwf) in Hq. lia.
  - intros Herr. unfold handle, view, login_required.
    rewrite Huser, post_create_run, Hmethod. cbn zeta. fold d.
    assert (is_valid {| data := Some d; instance := new_Post |} = false) as ->; [|done].
    unfold is_valid. simpl. by destruct (errors d).
Qed.

Lemma post_create_Redirect_inv (s s1 : Store) (request : Request)
    (to message : string) :
  handle slugify route_post_create request s = (Redirect to message, s1) →
  is_Some (user request) ∧ method request = POST ∧
  errors (POST_data request) = [].
Proof.
  unfold handle, view, login_required.
  destruct (user request) as [u|]; [|done].
  rewrite post_create_run. destruct (method request); [done|].
  cbn zeta. destruct (is_valid _) eqn:Hvalid; [|done].
  apply is_valid_bound in Hvalid. eauto.
Qed.

(** C5: when a post was created from one title, a valid create
    submission whose title has the same derived slug (a different title
    or the same) is rejected by the unique constraint on the slug: the
    view raises the integrity error, nothing is written, and the first
    post is still stored under its key. *)
Theorem duplicate_slug_rejected (s s1 : Store) (first second : Request)
    (u : User) (to message : string) :
  wf_store s →
  handle slugify route_post_create first s = (Redirect to message, s1) →
  user second = Some u → method second = POST →
  errors (POST_data second) = [] →
  slugify (POST_title (POST_data first)) = slugify (POST_title (POST_data second)) →
  handle slugify route_post_create second s1
  = (ServerError (IntegrityError "blog_post.slug"), s1) ∧
  ∃ row, rows s1 !! next_id s = Some row ∧
         title row = POST_title (POST_data first) ∧
         slug row = slugify (POST_title (POST_data first)).
Proof.
  intros Hwf Hfirst Huser Hmethod Hvalid Hsame.
  pose proof (handle_wf route_post_create first s Hwf) as Hwf1.
  destruct (post_create_Redirect_inv _ _ _ _ _ Hfirst) as ([u1 Hu1] & Hm1 & Hv1).
  rewrite (post_create_valid_run s u1 first Hwf Hu1 Hm1 Hv1) in Hfirst, Hwf1.
  cbn zeta in Hfirst, Hwf1. destruct (decide _) as [|_]; [done|].
  injection Hfirst as _ _ <-. simpl in Hwf1.
  rewrite (post_create_valid_run _ u second Hwf1 Huser Hmethod Hvalid).
  cbn zeta. simpl. rewrite decide_True.
  - split; [done|]. eexists. by rewrite lookup_insert_eq.
  - eexists (next_id s), _. unfold rows at 1. rewrite lookup_insert_eq.
    split; [done|]. split; [lia|]. done.
Qed.

(** C8: whatever the edit view is asked, every stored post is still
    stored afterwards under the same key with the author and the
    creation time it had; the form writes title, content, featured image
    and status of the instance and leaves key, slug, author and both
    timestamps to it. *)
Theorem post_edit_preserves_author_created_at (s : Store) (i : nat) (p : Post)
    (request : Request) (url_slug : string) :
  wf_store s → rows s !! i = Some p →
  (∃ p', rows (handle slugify (route_post_edit url_slug) request s).2 !! i = Some p' ∧
         pk p' = pk p ∧ author p' = author p ∧ created_at p' = created_at p) ∧
  (∀ d, pk (construct_instance d p) = pk p ∧
        author (construct_instance d p) = author p ∧
        created_at (construct_instance d p) = created_at p).
Proof.
  intros Hwf Hi. split; [|done].
  rewrite handle_store. unfold view, login_required.
  destruct (user request) as [u|]; [|by exists p].
  rewrite post_edit_run.
  destruct (get_object_or_404 _ s) as [[post|e] s'] eqn:Hget.
  - apply get_object_or_404_Ok in Hget as (-> & _ & j & Hj).
    destruct (method request); [by exists p|]. cbn zeta.
    destruct (is_valid _); [|by exists p].
    unfold Post_save.
    destruct (Model_save _ _ s) as [[p'|e] s'] eqn:Hsave.
    + apply Model_save_Ok in Hsave as (Hp' & _ & _ & Hrows & _).
      rewrite derive_slug_eq in Hp', Hrows. simpl in Hp', Hrows |- *.
      rewrite (wf_pk s Hwf j post Hj) in Hp', Hrows. simpl in Hp', Hrows.
      rewrite Hj in Hp'. rewrite Hrows.
      destruct (decide (i = j)) as [->|Hne].
      * rewrite lookup_insert_eq. exists p'. split; [done|].
        assert (post = p) as -> by congruence.
        rewrite Hp'. simpl. by rewrite (wf_pk s Hwf j p Hi).
      * rewrite lookup_insert_ne by done. by exists p.
    + apply Model_save_Raise in Hsave as ->. by exists p.
  - pose proof (get_object_or_404_store
      (λ q, slug q = url_slug ∧ author q = Some (user_pk u)) s) as Hs.
    rewrite Hget in Hs. simpl in Hs. subst s'. by exists p.
Qed.

(** C1, as the code has it: a valid edit by the author that changes the
    title of a stored post, and whose derived slug no other stored post
    carries, stores the derivation of the new title as the slug, whether
    the old slug was the derivation of the old title or was set by hand;
    the slug stays what it was only where it already is the derivation of
    the new title. *)
Theorem edit_title_rederives_slug (s : Store) (i : nat) (p : Post) (u : User)
    (request : Request) :
  wf_store s → rows s !! i = Some p → author p = Some (user_pk u) →
  user request = Some u → method request = POST →
  errors (POST_data request) = [] →
  let new_title := POST_title (POST_data request) in
  (∀ j q, rows s !! j = Some q → j ≠ i → slug q ≠ slugify new_title) →
  slug (derive_slug slugify (set_title new_title p)) = slugify new_title ∧
  ∃ s' p',
    handle slugify (route_post_edit (slug p)) request s
    = (Redirect "my_posts" "Post updated successfully!", s') ∧
    rows s' !! i = Some p' ∧ title p' = new_title ∧
    slug p' = slugify new_title ∧
    (slug p' = slug p ↔ slug p = slugify new_title).
Proof.
  intros Hwf Hi Hauthor Huser Hmethod Hvalid new_title Hfree.
  split; [apply derive_slug_slug|].
  rewrite (post_edit_valid_run s i p u request Hwf Hi Hauthor Huser Hmethod Hvalid).
  cbn zeta. fold new_title.
  destruct (decide (slug_taken s i (slugify new_title)))
    as [(j & q & Hj & Hne & Hslug)|_]; [by destruct (Hfree j q Hj)|].
  eexists _, _. split; [done|]. simpl. rewrite lookup_insert_eq.
  split; [done|]. simpl. split; [done|]. split; [done|]. split; congruence.
Qed.

End BlogFacts.

(** ** The canonical derivation *)

Example slugify_hello_world : Slug.slugify "Hello World" = "hello-world".
Proof. reflexivity. Qed.

Example slugify_punctuation : Slug.slugify "  Hello,   World!! " = "hello-world".
Proof. reflexivity. Qed.

Example slugify_only_punctuation : Slug.slugify "?!" = "".
Proof. reflexivity. Qed.

Example words_of_title :
  Slug.words (list_ascii_of_string "  Hello,   World!! ")
  = [list_ascii_of_string "Hello"; list_ascii_of_string "World"].
Proof. reflexivity. Qed.

Section SlugFacts.

Import Slug.








































End SlugFacts.


(** ** The theorems at the sample data *)

Lemma wf_two_posts : wf_store Sample.two_posts.
Proof. apply serve_wf, wf_empty_store. Qed.

Lemma edit_title_rederives_slug_witness :
  ∃ s' p',
    handle Slug.slugify (route_post_edit "hello-world")
      (Sample.submit Sample.alice "Hello Again" "First post." "published" 30)
      Sample.two_posts
    = (Redirect "my_posts" "Post updated successfully!", s') ∧
    rows s' !! 1%nat = Some p' ∧ title p' = "Hello Again" ∧
    slug p' = "hello-again".
Proof.
  destruct (edit_title_rederives_slug Slug.slugify Sample.two_posts 1
              Sample.hello_world Sample.alice
              (Sample.submit Sample.alice "Hello Again" "First post." "published" 30))
    as (_ & s' & p' & Hrun & Hrow & Htitle & Hslug & _).
  - apply wf_two_posts.
  - by_evaluation.
  - by_evaluation.
  - by_evaluation.
  - by_evaluation.
  - by_evaluation.
  - by_decision
      (map_Forall (λ j q, j ≠ 1%nat → slug q ≠ Slug.slugify "Hello Again")
         (rows Sample.two_posts)).
  - exists s', p'. split; [exact Hrun|]. split; [exact Hrow|].
    split; [exact Htitle|exact Hslug].
Defined.

(** C1 as stated fails: a stored post whose slug was set by hand to
    something else than the derivation of its title loses that slug when
    its title is edited, at the save and through the edit view. *)
Lemma manual_slug_overwritten :
  slug Sample.hand_made ≠ Slug.slugify (title Sample.hand_made) ∧
  slug (derive_slug Slug.slugify (set_title "Good Bye" Sample.hand_made))
  = "good-bye" ∧
  ∃ s',
    handle Slug.slugify (route_post_edit "custom")
      (Sample.submit Sample.alice "Good Bye" "First post." "published" 30)
      Sample.hand_made_store
    = (Redirect "my_posts" "Post updated successfully!", s') ∧
    slug <$> rows s' !! 1%nat = Some "good-bye" ∧
    slug <$> rows s' !! 1%nat ≠ Some (slug Sample.hand_made).
Proof.
  split; [by_evaluation|]. split; [by_evaluation|].
  eexists. split; [by_evaluation|]. split; by_evaluation.
Qed.


Lemma draft_hidden_from_public_witness :
  handle Slug.slugify (route_post_detail "work-in-progress")
    (Sample.get None 30) Sample.two_posts
  = (NotFound, Sample.two_posts).
Proof.
  destruct (draft_hidden_from_public Slug.slugify Sample.two_posts 2
              Sample.work_in_progress (Sample.get None 30))
    as (_ & Hdetail & _).
  - apply wf_two_posts.
  - by_evaluation.
  - by_evaluation.
  - exact Hdetail.
Defined.

Lemma non_owner_edit_delete_not_found_witness :
  handle Slug.slugify (route_post_edit "hello-world")
    (Sample.submit Sample.bob "Mine now" "Taken over." "published" 30)
    Sample.two_posts
  = (NotFound, Sample.two_posts) ∧
  handle Slug.slugify (route_post_delete "hello-world")
    (Sample.submit Sample.bob "Mine now" "Taken over." "published" 30)
    Sample.two_posts
  = (NotFound, Sample.two_posts).
Proof.
  destruct (non_owner_edit_delete_not_found Slug.slugify Sample.two_posts 1
              Sample.hello_world Sample.bob
              (Sample.submit Sample.bob "Mine now" "Taken over." "published" 30))
    as (Hedit & Hdelete & _).
  - apply wf_two_posts.
  - by_evaluation.
  - by_evaluation.
  - by_evaluation.
  - split; [exact Hedit|exact Hdelete].
Defined.

Lemma duplicate_slug_rejected_witness :
  ∃ s1,
    handle Slug.slugify route_post_create
      (Sample.submit Sample.alice "Hello World" "First post." "published" 10)
      empty_store
    = (Redirect "my_posts" "Post created successfully!", s1) ∧
    handle Slug.slugify route_post_create
      (Sample.submit Sample.bob "hello, world!" "Second post." "published" 20) s1
    = (ServerError (IntegrityError "blog_post.slug"), s1).
Proof.
  exists (handle Slug.slugify route_post_create
            (Sample.submit Sample.alice "Hello World" "First post." "published" 10)
            empty_store).2.
  assert (handle Slug.slugify route_post_create
            (Sample.submit Sample.alice "Hello World" "First post." "published" 10)
            empty_store
          = (Redirect "my_posts" "Post created successfully!",
             (handle Slug.slugify route_post_create
                (Sample.submit Sample.alice "Hello World" "First post." "published" 10)
                empty_store).2)) as Hfirst by by_evaluation.
  split; [exact Hfirst|].
  refine (proj1 (duplicate_slug_rejected Slug.slugify empty_store _ _
                   (Sample.submit Sample.bob "hello, world!" "Second post." "published" 20)
                   Sample.bob _ _ wf_empty_store Hfirst _ _ _ _)); by_evaluation.
Defined.


(** C7 as stated fails: a valid create submission whose derived slug a
    stored post already carries is not persisted and not redirected. *)
Lemma valid_create_rejected_on_collision :
  errors (POST_data (Sample.submit Sample.bob "hello, world!" "Second post."
                       "published" 30)) = [] ∧
  handle Slug.slugify route_post_create
    (Sample.submit Sample.bob "hello, world!" "Second post." "published" 30)
    Sample.two_posts
  = (ServerError (IntegrityError "blog_post.slug"), Sample.two_posts).
Proof. split; by_evaluation. Qed.

Lemma post_create_outcomes_witness :
  ∃ row,
    handle Slug.slugify route_post_create
      (Sample.submit Sample.bob "Second opinion" "By Bob." "draft" 30)
      Sample.two_posts
    = (Redirect "my_posts" "Post created successfully!",
       {| rows := <[3%nat := row]> (rows Sample.two_posts); next_id := 4 |}) ∧
    author row = Some 2%nat ∧ slug row = "second-opinion".
Proof.
  destruct (post_create_outcomes Slug.slugify Sample.two_posts Sample.bob
              (Sample.submit Sample.bob "Second opinion" "By Bob." "draft" 30))
    as [Hvalid _].
  - apply wf_two_posts.
  - by_evaluation.
  - by_evaluation.
  - destruct Hvalid as (row & Hrun & _ & Hauthor & _ & _ & _ & _ & Hslug).
    + by_evaluation.
    + by_decision
        (map_Forall (λ (j : nat) q, slug q ≠ Slug.slugify "Second opinion")
           (rows Sample.two_posts)).
    + exists row. split; [exact Hrun|]. split; [exact Hauthor|exact Hslug].
Defined.

Lemma post_edit_preserves_author_created_at_witness :
  ∃ p',
    rows (handle Slug.slugify (route_post_edit "hello-world")
            (Sample.submit Sample.alice "Hello Again" "Edited." "draft" 30)
            Sample.two_posts).2 !! 1%nat = Some p' ∧
    pk p' = Some 1%nat ∧ author p' = Some 1%nat ∧ created_at p' = Some 10.
Proof.
  exact (proj1 (post_edit_preserves_author_created_at Slug.slugify
                  Sample.two_posts 1 Sample.hello_world
                  (Sample.submit Sample.alice "Hello Again" "Edited." "draft" 30)
                  "hello-world" wf_two_posts
                  ltac:(by_evaluation))).
Defined.

Lemma invalid_form_leaves_store_witness :
  (handle Slug.slugify route_post_create
     (Sample.submit Sample.alice "" "No title." "published" 30)
     Sample.two_posts).2 = Sample.two_posts ∧
  (handle Slug.slugify (route_post_edit "hello-world")
     (Sample.submit Sample.alice "" "No title." "published" 30)
     Sample.two_posts).2 = Sample.two_posts.
Proof.
  destruct (invalid_form_leaves_store Slug.slugify
              (Sample.submit Sample.alice "" "No title." "published" 30)
              Sample.two_posts) as (Hcreate & Hedit & _).
  - vm_compute. discriminate.
  - split; [exact Hcreate|exact (Hedit "hello-world")].
Defined.

Lemma draft_detail_hidden_from_author_witness :
  handle Slug.slugify (route_post_detail "work-in-progress")
    (Sample.get (Some Sample.alice) 30) Sample.two_posts
  = (NotFound, Sample.two_posts).
Proof.
  refine (proj1 (draft_detail_hidden_from_author Slug.slugify Sample.two_posts 2
                   Sample.work_in_progress Sample.alice
                   (Sample.get (Some Sample.alice) 30) wf_two_posts _ _ _ _));
    by_evaluation.
Defined.

(** ** Further properties of the views *)

Lemma StronglySorted_filter {A} (R : relation A) (P : A → Prop)
    `{!∀ x, Decision (P x)} (l : list A) :
  StronglySorted R l → StronglySorted R (filter P l).
Proof.
  induction 1 as [|x l Hsorted IH Hall]; [constructor|].
  rewrite filter_cons. destruct (decide (P x)); [|done].
  constructor; [done|].
  apply Forall_forall. intros y [_ Hy]%list_elem_of_filter.
  by eapply Forall_forall in Hall.
Qed.

Lemma StronglySorted_all_posts (s : Store) :
  StronglySorted newest_first (all_posts s).
Proof. apply StronglySorted_merge_sort; apply _. Qed.


Section BlogMore.

Variable slugify : string → string.

(** X1: the public list renders exactly the stored posts of status
    published, newest first, and writes nothing. *)
Theorem post_list_published_newest_first (request : Request) (s : Store) :
  ∃ posts,
    handle slugify route_post_list request s
    = (Rendered "blog/post_list.html" (ctx_posts posts), s) ∧
    (∀ p, p ∈ posts ↔ (∃ i, rows s !! i = Some p) ∧ status p = "published") ∧
    StronglySorted newest_first posts.
Proof.
  exists (filter (λ p, status p = "published") (all_posts s)).
  split; [done|]. split.
  - intros p. rewrite elem_of_filter_all_posts. tauto.
  - apply StronglySorted_filter, StronglySorted_all_posts.
Qed.

(** X2: for a logged-in user the view of the user's posts renders exactly
    the stored posts whose author is that user, drafts as well as
    published ones, newest first, and writes nothing. *)
Theorem my_posts_own_posts_any_status (u : User) (request : Request) (s : Store) :
  user request = Some u →
  ∃ posts,
    handle slugify route_my_posts request s
    = (Rendered "blog/my_posts.html" (ctx_posts posts), s) ∧
    (∀ p, p ∈ posts ↔
          (∃ i, rows s !! i = Some p) ∧ author p = Some (user_pk u)) ∧
    StronglySorted newest_first posts.
Proof.
  intros Huser.
  exists (filter (λ p, author p = Some (user_pk u)) (all_posts s)).
  split; [|split].
  - unfold handle, view, login_required. by rewrite Huser.
  - intros p. rewrite elem_of_filter_all_posts. tauto.
  - apply StronglySorted_filter, StronglySorted_all_posts.
Qed.

(** X3: a GET request never writes, whatever the route, and neither does
    any request to the list, detail or own-posts view. *)
Theorem safe_requests_never_write (r : Route) (request : Request) (s : Store) :
  method request = GET ∨ r = route_post_list ∨ r = route_my_posts ∨
  (∃ url_slug, r = route_post_detail url_slug) →
  (handle slugify r request s).2 = s.
Proof.
  intros Hsafe. rewrite handle_store.
  assert (∀ url_slug, (view slugify (route_post_detail url_slug) request s).2 = s)
    as Hdetail.
  { intros url_slug. simpl. unfold post_detail. unfold_M.
    pose proof (get_object_or_404_store
      (λ p, slug p = url_slug ∧ status p = "published") s) as Hs.
    by destruct (get_object_or_404 _ s) as [[?|?] ?]; simpl in *; subst. }
  assert ((view slugify route_my_posts request s).2 = s) as Hmine.
  { simpl. unfold login_required. by destruct (user request). }
  destruct Hsafe as [Hget|[->|[->|[url_slug ->]]]]; [|done|done|done].
  destruct r; [done|done| | | |done]; simpl; unfold login_required;
    (destruct (user request) as [u|]; [|done]).
  - by rewrite post_create_run, Hget.
  - rewrite post_edit_run.
    pose proof (get_object_or_404_store
      (λ p, slug p = url_slug ∧ author p = Some (user_pk u)) s) as Hs.
    destruct (get_object_or_404 _ s) as [[?|?] ?]; simpl in *; subst; [|done].
    by rewrite Hget.
  - rewrite post_delete_run.
    pose proof (get_object_or_404_store
      (λ p, slug p = url_slug ∧ author p = Some (user_pk u)) s) as Hs.
    destruct (get_object_or_404 _ s) as [[?|?] ?]; simpl in *; subst; [|done].
    by rewrite Hget.
Qed.


Lemma Model_save_derived (now : Z) (p : Post) (s : Store) :
  slugs_derived slugify s → slug p = slugify (title p) →
  slugs_derived slugify (Model_save now p s).2.
Proof.
  intros Hs Hp.
  destruct (Model_save now p s) as [[p'|e] s'] eqn:Hsave; simpl;
    [|by apply Model_save_Raise in Hsave as ->].
  apply Model_save_Ok in Hsave as (Hp' & Hauthor & _ & Hrows & _).
  unfold slugs_derived. rewrite Hrows. apply map_Forall_insert_2; [|done].
  rewrite Hp'. unfold set_pk. cbn [slug title author].
  destruct (pre_save_fields now
    (match rows s !! default (next_id s) (pk p) with
     | Some _ => false | None => true end) p)
    as (_ & -> & -> & -> & _). done.
Qed.

Lemma handle_derived (r : Route) (request : Request) (s : Store) :
  slugs_derived slugify s → slugs_derived slugify (handle slugify r request s).2.
Proof.
  intros Hs. rewrite handle_store.
  destruct r; simpl; unfold login_required; try done;
    try (destruct (user request) as [u|]; [|done]).
  - unfold post_detail. unfold_M.
    pose proof (get_object_or_404_store
      (λ p, slug p = url_slug ∧ status p = "published") s) as Hstore.
    by destruct (get_object_or_404 _ s) as [[?|?] ?]; simpl in *; subst.
  - rewrite post_create_run. destruct (method request); [done|]. cbn zeta.
    destruct (is_valid _); [|done].
    pose proof (Model_save_derived (now request)
      (derive_slug slugify (set_author (Some (user_pk u))
         (construct_instance (POST_data request) new_Post))) s Hs) as Hsave.
    unfold Post_save.
    destruct (Model_save _ _ s) as [[?|?] ?]; apply Hsave;
      by rewrite derive_slug_eq.
  - rewrite post_edit_run.
    pose proof (get_object_or_404_store
      (λ q, slug q = url_slug ∧ author q = Some (user_pk u)) s) as Hstore.
    destruct (get_object_or_404 _ s) as [[post|e] s']; simpl in *; subst s';
      [|done].
    destruct (method request); [done|]. cbn zeta.
    destruct (is_valid _); [|done].
    pose proof (Model_save_derived (now request)
      (derive_slug slugify (construct_instance (POST_data request) post))
      s Hs) as Hsave.
    unfold Post_save.
    destruct (Model_save _ _ s) as [[?|?] ?]; apply Hsave;
      by rewrite derive_slug_eq.
  - rewrite post_delete_run.
    pose proof (get_object_or_404_store
      (λ q, slug q = url_slug ∧ author q = Some (user_pk u)) s) as Hstore.
    destruct (get_object_or_404 _ s) as [[post|e] s']; simpl in *; subst s';
      [|done].
    destruct (method request); [done|].
    unfold Model_delete. destruct (pk post); [|done]. simpl.
    by apply map_Forall_delete.
  - done.
Qed.

(** X5: the views only ever store derived slugs: on a store in which
    every row carries the derivation of its title as slug and has an
    author, the same holds after any sequence of requests. *)
Theorem views_keep_slugs_derived (rs : list (Route * Request)) (s : Store) :
  slugs_derived slugify s → slugs_derived slugify (serve slugify rs s).2.
Proof.
  revert s. induction rs as [|[r request] rs IH]; intros s Hs; [done|].
  simpl. pose proof (handle_derived r request s Hs) as Hs'.
  destruct (handle slugify r request s) as [response s'].
  specialize (IH s' Hs'). by destruct (serve slugify rs s').
Qed.

Lemma set_slug_same (p : Post) : set_slug (slug p) p = p.
Proof. by destruct p. Qed.

Lemma set_pk_same (p : Post) : set_pk (pk p) p = p.
Proof. by destruct p. Qed.

(** X6: saving again what a save returned is accepted and rewrites the
    same row with nothing changed but [updated_at]: the slug is already
    the derivation of the title, the row is updated under its own key,
    and the unique constraint does not count the row itself. *)
Theorem save_again_touches_updated_at (now now' : Z) (p p' : Post)
    (s s' : Store) :
  Post_save slugify now p s = (Ok p', s') →
  ∃ i, pk p' = Some i ∧ rows s' !! i = Some p' ∧
       Post_save slugify now' p' s'
       = (Ok (set_updated_at (Some now') p'),
          {| rows := <[i := set_updated_at (Some now') p']> (rows s');
             next_id := next_id s' |}).
Proof.
  unfold Post_save. intros Hsave.
  apply Model_save_Ok in Hsave as (Hp' & [a Ha] & Hfree & Hrows & Hnext).
  set (i := default (next_id s) (pk (derive_slug slugify p))) in *.
  set (add := match rows s !! i with Some _ => false | None => true end) in *.
  destruct (pre_save_fields now add (derive_slug slugify p))
    as (_ & Htitle & Hslug & Hauthor & _).
  assert (pk p' = Some i) as Hpk by (by rewrite Hp').
  assert (slug p' = slugify (title p')) as Hderived.
  { rewrite Hp'. unfold set_pk. cbn [slug title].
    rewrite Hslug, Htitle, derive_slug_eq. done. }
  assert (rows s' !! i = Some p') as Hi by (rewrite Hrows; apply lookup_insert_eq).
  exists i. split; [done|]. split; [done|].
  rewrite derive_slug_eq, <- Hderived, set_slug_same, Model_save_run.
  rewrite Hpk. simpl. rewrite Hi.
  assert (author p' = Some a) as ->
    by (rewrite Hp'; unfold set_pk; cbn [author]; congruence).
  rewrite decide_False.
  - unfold pre_save.
    assert (set_pk (Some i) (set_updated_at (Some now') p')
            = set_updated_at (Some now') p') as ->
      by (rewrite <- Hpk; by destruct p').
    f_equal. f_equal. lia.
  - intros (j & q & Hj & Hne & Hq). apply Hfree. exists j, q.
    rewrite Hrows, lookup_insert_ne in Hj by done.
    split; [done|]. split; [done|].
    rewrite Hq, Hp'. unfold set_pk. cbn [slug]. by rewrite Hslug.
Qed.

(** X7: the URL of a stored post leads back to it: the route that
    [get_absolute_url] gives renders the detail page of that very post
    when it is published, for any visitor, and answers not-found when it
    is not. *)
Theorem get_absolute_url_resolves (s : Store) (i : nat) (p : Post)
    (request : Request) :
  wf_store s → rows s !! i = Some p →
  (status p = "published" →
   handle slugify (get_absolute_url p) request s
   = (Rendered "blog/post_detail.html" (ctx_post p), s)) ∧
  (status p ≠ "published" →
   handle slugify (get_absolute_url p) request s = (NotFound, s)).
Proof.
  intros Hwf Hi. split; intros Hstatus.
  - unfold get_absolute_url, handle, view, post_detail. unfold_M.
    rewrite (get_object_or_404_one _ s i p Hwf Hi); [done|done|].
    intros j q Hj [Hslug _]. by eapply (wf_slug s Hwf).
  - by apply (post_detail_hidden slugify s i).
Qed.

(** X8: a post created through the create view can be read back: under
    the derived slug the detail view renders the new row for any visitor
    when it was submitted as published and answers not-found otherwise,
    and in both cases the author finds it among the own posts. *)
Theorem created_post_is_readable (s : Store) (u : User)
    (request visitor : Request) :
  wf_store s → user request = Some u → method request = POST →
  errors (POST_data request) = [] →
  let d := POST_data request in
  (∀ j q, rows s !! j = Some q → slug q ≠ slugify (POST_title d)) →
  ∃ row s',
    handle slugify route_post_create request s
    = (Redirect "my_posts" "Post created successfully!", s') ∧
    rows s' !! next_id s = Some row ∧ title row = POST_title d ∧
    (POST_status d = "published" →
     handle slugify (route_post_detail (slugify (POST_title d))) visitor s'
     = (Rendered "blog/post_detail.html" (ctx_post row), s')) ∧
    (POST_status d ≠ "published" →
     handle slugify (route_post_detail (slugify (POST_title d))) visitor s'
     = (NotFound, s')) ∧
    (user visitor = Some u →
     ∃ posts,
       handle slugify route_my_posts visitor s'
       = (Rendered "blog/my_posts.html" (ctx_posts posts), s') ∧
       row ∈ posts).
Proof.
  intros Hwf Huser Hmethod Hvalid d Hfree.
  pose proof (handle_wf slugify route_post_create request s Hwf) as Hwf'.
  rewrite (post_create_valid_run slugify s u request Hwf Huser Hmethod Hvalid)
    in Hwf' |- *.
  cbn zeta in Hwf' |- *. fold d in Hwf' |- *.
  destruct (decide (slug_taken s (next_id s) (slugify (POST_title d))))
    as [(j & q & Hj & _ & Hslug)|_]; [by destruct (Hfree j q Hj)|].
  simpl in Hwf'.
  match goal with
  | |- ∃ row s', (_, {| rows := <[_ := ?r]> _; next_id := _ |}) = _ ∧ _ =>
      set (new_row := r) in *
  end.
  match goal with
  | |- ∃ row s', (_, ?st) = _ ∧ _ => set (new_store := st) in *
  end.
  exists new_row, new_store. split; [done|].
  assert (rows new_store !! next_id s = Some new_row) as Hrow
    by apply lookup_insert_eq.
  split; [done|]. split; [done|]. split; [|split].
  - intros Hpublished.
    unfold handle, view, post_detail. unfold_M.
    rewrite (get_object_or_404_one _ new_store (next_id s) new_row Hwf' Hrow);
      [done|done|].
    intros j q Hj [Hslug _]. by eapply (wf_slug new_store Hwf').
  - intros Hdraft.
    by apply (post_detail_hidden slugify new_store (next_id s) new_row).
  - intros Hvisitor.
    exists (filter (λ p, author p = Some (user_pk u)) (all_posts new_store)).
    split.
    + unfold handle, view, login_required. by rewrite Hvisitor.
    + apply elem_of_filter_all_posts. eauto.
Qed.

(** X9: an edit that changes the derived slug moves the post: afterwards
    the old slug answers not-found on the detail view and, for every
    logged-in user, on the edit and delete views. *)
Theorem retitled_post_leaves_old_slug (s : Store) (i : nat) (p : Post)
    (u : User) (request visitor : Request) :
  wf_store s → rows s !! i = Some p → author p = Some (user_pk u) →
  user request = Some u → method request = POST →
  errors (POST_data request) = [] →
  let new_slug := slugify (POST_title (POST_data request)) in
  (∀ j q, rows s !! j = Some q → j ≠ i → slug q ≠ new_slug) →
  new_slug ≠ slug p →
  ∃ s',
    handle slugify (route_post_edit (slug p)) request s
    = (Redirect "my_posts" "Post updated successfully!", s') ∧
    handle slugify (route_post_detail (slug p)) visitor s' = (NotFound, s') ∧
    (is_Some (user visitor) →
     handle slugify (route_post_edit (slug p)) visitor s' = (NotFound, s') ∧
     handle slugify (route_post_delete (slug p)) visitor s' = (NotFound, s')).
Proof.
  intros Hwf Hi Hauthor Huser Hmethod Hvalid new_slug Hfree Hmoved.
  rewrite (post_edit_valid_run slugify s i p u request
             Hwf Hi Hauthor Huser Hmethod Hvalid).
  cbn zeta. fold new_slug.
  destruct (decide (slug_taken s i new_slug))
    as [(j & q & Hj & Hne & Hslug)|_]; [by destruct (Hfree j q Hj)|].
  eexists. split; [done|].
  match goal with |- handle _ _ _ ?s' = _ ∧ _ => set (new_store := s') end.
  assert (∀ j q, rows new_store !! j = Some q → slug q ≠ slug p) as Hgone.
  { subst new_store. simpl.
    intros j q [[<- <-]|[Hne Hj]]%lookup_insert_Some; [done|].
    intros Hslug. apply Hne. symmetry. by eapply (wf_slug s Hwf). }
  split; [by apply post_detail_missing|].
  intros [v Hv]. apply (edit_delete_not_found slugify new_store v); [|done].
  intros j q Hj Hslug. by destruct (Hgone j q Hj).
Qed.

(** X10: an edit whose new title derives the slug of another stored post
    is rejected by the unique constraint, and the store, both posts
    included, stays as it was. *)
Theorem edit_into_taken_slug_rejected (s : Store) (i j : nat) (p q : Post)
    (u : User) (request : Request) :
  wf_store s → rows s !! i = Some p → author p = Some (user_pk u) →
  user request = Some u → method request = POST →
  errors (POST_data request) = [] →
  rows s !! j = Some q → j ≠ i →
  slug q = slugify (POST_title (POST_data request)) →
  handle slugify (route_post_edit (slug p)) request s
  = (ServerError (IntegrityError "blog_post.slug"), s).
Proof.
  intros Hwf Hi Hauthor Huser Hmethod Hvalid Hj Hne Hslug.
  rewrite (post_edit_valid_run slugify s i p u request
             Hwf Hi Hauthor Huser Hmethod Hvalid).
  cbn zeta. rewrite decide_True; [done|]. by exists j, q.
Qed.

(** X11: an edit that keeps the derived slug never collides with the
    post's own row: it is accepted whatever else is stored, the row keeps
    its key and slug and takes the submitted title, content and status
    and the time of the request as [updated_at]. *)
Theorem edit_keeping_slug_succeeds (s : Store) (i : nat) (p : Post)
    (u : User) (request : Request) :
  wf_store s → rows s !! i = Some p → author p = Some (user_pk u) →
  user request = Some u → method request = POST →
  errors (POST_data request) = [] →
  let d := POST_data request in
  slugify (POST_title d) = slug p →
  ∃ row,
    handle slugify (route_post_edit (slug p)) request s
    = (Redirect "my_posts" "Post updated successfully!",
       {| rows := <[i := row]> (rows s); next_id := next_id s |}) ∧
    pk row = Some i ∧ slug row = slug p ∧ title row = POST_title d ∧
    content row = POST_content d ∧ status row = POST_status d ∧
    updated_at row = Some (now request).
Proof.
  intros Hwf Hi Hauthor Huser Hmethod Hvalid d Hsame.
  rewrite (post_edit_valid_run slugify s i p u request
             Hwf Hi Hauthor Huser Hmethod Hvalid).
  cbn zeta. fold d.
  destruct (decide (slug_taken s i (slugify (POST_title d))))
    as [(j & q & Hj & Hne & Hslug)|_].
  - destruct Hne. apply (wf_slug s Hwf j i q p Hj Hi). congruence.
  - eexists. split; [done|]. by rewrite <- Hsame.
Qed.

(** X12: the status submitted with an edit decides whether the post is
    public: after an accepted edit the post is on the public list exactly
    when the submitted status is published. *)
Theorem edit_status_controls_listing (s : Store) (i : nat) (p : Post)
    (u : User) (request visitor : Request) :
  wf_store s → rows s !! i = Some p → author p = Some (user_pk u) →
  user request = Some u → method request = POST →
  errors (POST_data request) = [] →
  let d := POST_data request in
  (∀ j q, rows s !! j = Some q → j ≠ i → slug q ≠ slugify (POST_title d)) →
  ∃ row s' posts,
    handle slugify (route_post_edit (slug p)) request s
    = (Redirect "my_posts" "Post updated successfully!", s') ∧
    rows s' !! i = Some row ∧
    handle slugify route_post_list visitor s'
    = (Rendered "blog/post_list.html" (ctx_posts posts), s') ∧
    (row ∈ posts ↔ POST_status d = "published").
Proof.
  intros Hwf Hi Hauthor Huser Hmethod Hvalid d Hfree.
  rewrite (post_edit_valid_run slugify s i p u request
             Hwf Hi Hauthor Huser Hmethod Hvalid).
  cbn zeta. fold d.
  destruct (decide (slug_taken s i (slugify (POST_title d))))
    as [(j & q & Hj & Hne & Hslug)|_]; [by destruct (Hfree j q Hj)|].
  eexists _, _, _. split; [done|]. split; [apply lookup_insert_eq|].
  split; [done|].
  rewrite elem_of_filter_all_posts. simpl. split; [by intros [? _]|].
  intros Hpublished. split; [done|]. exists i. apply lookup_insert_eq.
Qed.

(** What a request does to the store: nothing, one save, or the deletion
    of one row; the instance an edit saves has the key, author and
    creation time of a stored row. *)
Lemma handle_writes (r : Route) (request : Request) (s : Store) :
  wf_store s →
  (handle slugify r request s).2 = s ∨
  (∃ p, (handle slugify r request s).2 = (Model_save (now request) p s).2 ∧
        (pk p = None ∨
         ∃ j post, pk p = Some j ∧ rows s !! j = Some post ∧
                   author p = author post ∧ created_at p = created_at post)) ∨
  (∃ j, (handle slugify r request s).2
        = {| rows := delete j (rows s); next_id := next_id s |}).
Proof.
  intros Hwf. rewrite handle_store.
  destruct r as [|url_slug| |url_slug|url_slug|]; simpl; unfold login_required;
    try (by left); try (destruct (user request) as [u|]; [|by left]).
  - left. unfold post_detail. unfold_M.
    pose proof (get_object_or_404_store
      (λ p, slug p = url_slug ∧ status p = "published") s) as Hs.
    by destruct (get_object_or_404 _ s) as [[?|?] ?]; simpl in *; subst.
  - rewrite post_create_run. destruct (method request); [by left|]. cbn zeta.
    destruct (is_valid _); [|by left].
    right. left.
    exists (derive_slug slugify (set_author (Some (user_pk u))
              (construct_instance (POST_data request) new_Post))).
    unfold Post_save. split.
    + by destruct (Model_save _ _ s) as [[?|?] ?].
    + left. by rewrite derive_slug_eq.
  - rewrite post_edit_run.
    destruct (get_object_or_404 _ s) as [[post|e] s'] eqn:Hget.
    + apply get_object_or_404_Ok in Hget as (-> & _ & j & Hj).
      destruct (method request); [by left|]. cbn zeta.
      destruct (is_valid _); [|by left].
      right. left.
      exists (derive_slug slugify (construct_instance (POST_data request) post)).
      unfold Post_save. split.
      * by destruct (Model_save _ _ s) as [[?|?] ?].
      * right. exists j, post. rewrite derive_slug_eq. simpl.
        by rewrite (wf_pk s Hwf j post Hj).
    + left.
      pose proof (get_object_or_404_store
        (λ q, slug q = url_slug ∧ author q = Some (user_pk u)) s) as Hs.
      rewrite Hget in Hs. by simpl in *.
  - rewrite post_delete_run.
    pose proof (get_object_or_404_store
      (λ q, slug q = url_slug ∧ author q = Some (user_pk u)) s) as Hs.
    destruct (get_object_or_404 _ s) as [[post|e] s']; simpl in *; subst s';
      [|by left].
    destruct (method request); [by left|].
    unfold Model_delete. destruct (pk post) as [j|]; [|by left].
    right. right. by exists j.
  - by left.
Qed.

Lemma handle_next_id_mono (r : Route) (request : Request) (s : Store) :
  wf_store s → (next_id s ≤ next_id (handle slugify r request s).2)%nat.
Proof.
  intros Hwf.
  destruct (handle_writes r request s Hwf) as [->|[(p & -> & _)|(j & ->)]];
    [done| |done].
  destruct (Model_save (now request) p s) as [[p'|e] s'] eqn:Hsave; simpl.
  - apply Model_save_Ok in Hsave as (_ & _ & _ & _ & ->). lia.
  - by apply Model_save_Raise in Hsave as ->.
Qed.

Lemma handle_keeps_identity (r : Route) (request : Request) (s : Store)
    (i : nat) (p : Post) :
  wf_store s → rows s !! i = Some p →
  rows (handle slugify r request s).2 !! i = None ∨
  ∃ p', rows (handle slugify r request s).2 !! i = Some p' ∧
        pk p' = pk p ∧ author p' = author p ∧ created_at p' = created_at p.
Proof.
  intros Hwf Hi.
  destruct (handle_writes r request s Hwf)
    as [->|[(q & -> & Hq)|(j & ->)]].
  - right. by exists p.
  - destruct (Model_save (now request) q s) as [[q'|e] s'] eqn:Hsave; simpl;
      [|apply Model_save_Raise in Hsave as ->; right; by exists p].
    apply Model_save_Ok in Hsave as (Hq' & _ & _ & -> & _).
    right. destruct Hq as [Hnew|(j & post & Hpk & Hj & Hauthor & Hcreated)].
    + rewrite Hnew in *. simpl in *.
      rewrite lookup_insert_ne; [by exists p|].
      apply (wf_fresh s Hwf) in Hi. lia.
    + rewrite Hpk in *. simpl in *. rewrite Hj in Hq'.
      destruct (decide (j = i)) as [->|Hne].
      * rewrite lookup_insert_eq. exists q'. split; [done|].
        assert (post = p) as -> by congruence.
        rewrite Hq'. simpl. by rewrite (wf_pk s Hwf i p Hi).
      * rewrite lookup_insert_ne by done. by exists p.
  - simpl. destruct (decide (j = i)) as [->|Hne].
    + left. apply lookup_delete_eq.
    + right. rewrite lookup_delete_ne by done. by exists p.
Qed.

(** X13: no request changes who wrote a post or when it was created:
    whatever requests are served, a post that is stored before and still
    stored after has the key, author and creation time it had. *)
Theorem author_created_at_never_change (rs : list (Route * Request))
    (s : Store) (i : nat) (p p' : Post) :
  wf_store s → rows s !! i = Some p →
  rows (serve slugify rs s).2 !! i = Some p' →
  pk p' = pk p ∧ author p' = author p ∧ created_at p' = created_at p.
Proof.
  revert s p. induction rs as [|[r request] rs IH]; intros s p Hwf Hi; simpl.
  - intros Hp'. by assert (p' = p) as -> by congruence.
  - pose proof (handle_wf slugify r request s Hwf) as Hwf'.
    pose proof (handle_next_id_mono r request s Hwf) as Hmono.
    pose proof (wf_fresh s Hwf i p Hi) as Hlt.
    destruct (handle_keeps_identity r request s i p Hwf Hi)
      as [Hgone|(q & Hq & Hpk & Hauthor & Hcreated)].
    + pose proof (serve_keeps_gone slugify rs _ i Hwf' Hgone
                    ltac:(lia)) as Hnever.
      revert Hnever.
      destruct (handle slugify r request s) as [response s1]. simpl.
      destruct (serve slugify rs s1) as [responses s2]. simpl. congruence.
    + pose proof (IH _ q Hwf' Hq) as Hrest. revert Hrest.
      destruct (handle slugify r request s) as [response s1]. simpl.
      destruct (serve slugify rs s1) as [responses s2]. simpl.
      intros Hrest Hp'. destruct (Hrest Hp') as (-> & -> & ->). done.
Qed.

(** X14: a request touches at most one row: there is a key such that the
    rows under all other keys are after the request what they were
    before. *)
Theorem request_touches_one_row (r : Route) (request : Request) (s : Store) :
  wf_store s →
  ∃ k, ∀ j, j ≠ k → rows (handle slugify r request s).2 !! j = rows s !! j.
Proof.
  intros Hwf.
  destruct (handle_writes r request s Hwf) as [->|[(p & -> & _)|(k & ->)]].
  - by exists 0%nat.
  - exists (default (next_id s) (pk p)). intros j Hne.
    destruct (Model_save (now request) p s) as [[p'|e] s'] eqn:Hsave; simpl.
    + apply Model_save_Ok in Hsave as (_ & _ & _ & -> & _).
      by rewrite lookup_insert_ne.
    + by apply Model_save_Raise in Hsave as ->.
  - exists k. intros j Hne. simpl. by rewrite lookup_delete_ne.
Qed.

(** X15: deleting a post frees its slug: after the author's POST to the
    delete view, a valid create submission whose title derives the slug
    of the deleted post is accepted and stored under a new key. *)
Theorem slug_free_after_delete (s : Store) (i : nat) (p : Post)
    (u v : User) (request again : Request) :
  wf_store s → rows s !! i = Some p → author p = Some (user_pk u) →
  user request = Some u → method request = POST →
  user again = Some v → method again = POST →
  errors (POST_data again) = [] →
  slugify (POST_title (POST_data again)) = slug p →
  ∃ s' row,
    handle slugify (route_post_delete (slug p)) request s
    = (Redirect "my_posts" "Post deleted successfully!", s') ∧
    handle slugify route_post_create again s'
    = (Redirect "my_posts" "Post created successfully!",
       {| rows := <[next_id s := row]> (delete i (rows s));
          next_id := S (next_id s) |}) ∧
    pk row = Some (next_id s) ∧ next_id s ≠ i ∧
    slug row = slug p ∧ author row = Some (user_pk v).
Proof.
  intros Hwf Hi Hauthor Huser Hmethod Hv Hpost Hvalid Hsame.
  pose proof (handle_wf slugify (route_post_delete (slug p)) request s Hwf)
    as Hwf'.
  rewrite (post_delete_own_run slugify s i p u request Hwf Hi Hauthor Huser),
    Hmethod in Hwf' |- *. simpl in Hwf'.
  eexists _, _. split; [done|].
  rewrite (post_create_valid_run slugify _ v again Hwf' Hv Hpost Hvalid).
  cbn zeta. simpl. rewrite decide_False.
  - split; [done|]. split; [done|]. split; [|done].
    apply (wf_fresh s Hwf) in Hi. lia.
  - intros (j & q & Hj & _ & Hslug). simpl in Hj.
    apply lookup_delete_Some in Hj as [Hne Hj].
    apply Hne. symmetry. apply (wf_slug s Hwf j i q p Hj Hi). congruence.
Qed.

(** X16: whatever requests are served on the empty store, no two stored
    posts share a slug and every post is stored under its own key. *)
Theorem served_slugs_unique (rs : list (Route * Request)) (i j : nat)
    (p q : Post) :
  rows (serve slugify rs empty_store).2 !! i = Some p →
  rows (serve slugify rs empty_store).2 !! j = Some q →
  pk p = Some i ∧ (slug p = slug q → i = j ∧ p = q).
Proof.
  intros Hi Hj.
  pose proof (serve_wf slugify rs empty_store wf_empty_store) as Hwf.
  split; [by apply (wf_pk _ Hwf)|].
  intros Hslug. assert (i = j) as -> by (by eapply (wf_slug _ Hwf)).
  split; [done|congruence].
Qed.

End BlogMore.

(** ** The further properties at the sample data *)

Lemma my_posts_own_posts_any_status_witness :
  ∃ posts,
    handle Slug.slugify route_my_posts (Sample.get (Some Sample.alice) 30)
      Sample.two_posts
    = (Rendered "blog/my_posts.html" (ctx_posts posts), Sample.two_posts) ∧
    Sample.work_in_progress ∈ posts.
Proof.
  destruct (my_posts_own_posts_any_status Slug.slugify Sample.alice
              (Sample.get (Some Sample.alice) 30) Sample.two_posts)
    as (posts & Hrun & Hposts & _).
  - by_evaluation.
  - exists posts. split; [exact Hrun|].
    apply Hposts. split; [exists 2%nat|]; by_evaluation.
Defined.

Lemma safe_requests_never_write_witness :
  (handle Slug.slugify (route_post_delete "hello-world")
     (Sample.get (Some Sample.alice) 30) Sample.two_posts).2
  = Sample.two_posts.
Proof.
  apply (safe_requests_never_write Slug.slugify (route_post_delete "hello-world")
           (Sample.get (Some Sample.alice) 30) Sample.two_posts).
  left. by_evaluation.
Defined.


Lemma views_keep_slugs_derived_witness :
  slugs_derived Slug.slugify
    (serve Slug.slugify
       [(route_post_edit "hello-world",
         Sample.submit Sample.alice "Hello Again" "Edited." "draft" 30);
        (route_post_create,
         Sample.submit Sample.bob "Second opinion" "By Bob." "published" 40)]
       Sample.two_posts).2.
Proof.
  apply (views_keep_slugs_derived Slug.slugify).
  by_decision
    (map_Forall (λ (_ : nat) p, slug p = Slug.slugify (title p) ∧ is_Some (author p))
       (rows Sample.two_posts)).
Defined.

Lemma save_again_touches_updated_at_witness :
  ∃ i, pk Sample.hello_world = Some i ∧
       Post_save Slug.slugify 30 Sample.hello_world
         {| rows := {[ 1%nat := Sample.hello_world ]}; next_id := 2 |}
       = (Ok (set_updated_at (Some 30) Sample.hello_world),
          {| rows := <[i := set_updated_at (Some 30) Sample.hello_world]>
                       {[ 1%nat := Sample.hello_world ]};
             next_id := 2 |}).
Proof.
  destruct (save_again_touches_updated_at Slug.slugify 10 30
              (set_author (Some 1%nat)
                 (construct_instance
                    (POST_data (Sample.submit Sample.alice "Hello World"
                                  "First post." "published" 10))
                    new_Post))
              Sample.hello_world empty_store
              {| rows := {[ 1%nat := Sample.hello_world ]}; next_id := 2 |})
    as (i & Hpk & _ & Hsave).
  - by_evaluation.
  - exists i. split; [exact Hpk|exact Hsave].
Defined.

Lemma get_absolute_url_resolves_witness :
  handle Slug.slugify (get_absolute_url Sample.hello_world)
    (Sample.get None 30) Sample.two_posts
  = (Rendered "blog/post_detail.html" (ctx_post Sample.hello_world),
     Sample.two_posts).
Proof.
  refine (proj1 (get_absolute_url_resolves Slug.slugify Sample.two_posts 1
                   Sample.hello_world (Sample.get None 30) wf_two_posts _) _);
    by_evaluation.
Defined.

Lemma created_post_is_readable_witness :
  ∃ row s',
    handle Slug.slugify route_post_create
      (Sample.submit Sample.bob "Second opinion" "By Bob." "published" 30)
      Sample.two_posts
    = (Redirect "my_posts" "Post created successfully!", s') ∧
    handle Slug.slugify (route_post_detail "second-opinion")
      (Sample.get None 40) s'
    = (Rendered "blog/post_detail.html" (ctx_post row), s').
Proof.
  destruct (created_post_is_readable Slug.slugify Sample.two_posts Sample.bob
              (Sample.submit Sample.bob "Second opinion" "By Bob." "published" 30)
              (Sample.get None 40))
    as (row & s' & Hcreate & _ & _ & Hdetail & _).
  - apply wf_two_posts.
  - by_evaluation.
  - by_evaluation.
  - by_evaluation.
  - by_decision
      (map_Forall (λ (j : nat) q, slug q ≠ Slug.slugify "Second opinion")
         (rows Sample.two_posts)).
  - exists row, s'. split; [exact Hcreate|]. apply Hdetail. by_evaluation.
Defined.

Lemma retitled_post_leaves_old_slug_witness :
  ∃ s',
    handle Slug.slugify (route_post_edit "hello-world")
      (Sample.submit Sample.alice "Hello Again" "First post." "published" 30)
      Sample.two_posts
    = (Redirect "my_posts" "Post updated successfully!", s') ∧
    handle Slug.slugify (route_post_detail "hello-world") (Sample.get None 40) s'
    = (NotFound, s').
Proof.
  destruct (retitled_post_leaves_old_slug Slug.slugify Sample.two_posts 1
              Sample.hello_world Sample.alice
              (Sample.submit Sample.alice "Hello Again" "First post." "published" 30)
              (Sample.get None 40))
    as (s' & Hedit & Hdetail & _).
  - apply wf_two_posts.
  - by_evaluation.
  - by_evaluation.
  - by_evaluation.
  - by_evaluation.
  - by_evaluation.
  - by_decision
      (map_Forall (λ j q, j ≠ 1%nat → slug q ≠ Slug.slugify "Hello Again")
         (rows Sample.two_posts)).
  - vm_compute. discriminate.
  - exists s'. split; [exact Hedit|exact Hdetail].
Defined.

Lemma edit_into_taken_slug_rejected_witness :
  handle Slug.slugify (route_post_edit "work-in-progress")
    (Sample.submit Sample.alice "Hello, World" "Not yet." "draft" 30)
    Sample.two_posts
  = (ServerError (IntegrityError "blog_post.slug"), Sample.two_posts).
Proof.
  refine (edit_into_taken_slug_rejected Slug.slugify Sample.two_posts 2 1
            Sample.work_in_progress Sample.hello_world Sample.alice
            (Sample.submit Sample.alice "Hello, World" "Not yet." "draft" 30)
            wf_two_posts _ _ _ _ _ _ _ _);
    first [by_evaluation | vm_compute; lia].
Defined.

Lemma edit_keeping_slug_succeeds_witness :
  ∃ row,
    handle Slug.slugify (route_post_edit "hello-world")
      (Sample.submit Sample.alice "Hello, world!" "Rewritten." "draft" 30)
      Sample.two_posts
    = (Redirect "my_posts" "Post updated successfully!",
       {| rows := <[1%nat := row]> (rows Sample.two_posts); next_id := 3 |}) ∧
    slug row = "hello-world" ∧ title row = "Hello, world!".
Proof.
  destruct (edit_keeping_slug_succeeds Slug.slugify Sample.two_posts 1
              Sample.hello_world Sample.alice
              (Sample.submit Sample.alice "Hello, world!" "Rewritten." "draft" 30))
    as (row & Hedit & _ & Hslug & Htitle & _).
  - apply wf_two_posts.
  - by_evaluation.
  - by_evaluation.
  - by_evaluation.
  - by_evaluation.
  - by_evaluation.
  - by_evaluation.
  - exists row. split; [exact Hedit|]. split; [exact Hslug|exact Htitle].
Defined.

Lemma edit_status_controls_listing_witness :
  ∃ row s' posts,
    handle Slug.slugify (route_post_edit "work-in-progress")
      (Sample.submit Sample.alice "Work in progress" "Done." "published" 30)
      Sample.two_posts
    = (Redirect "my_posts" "Post updated successfully!", s') ∧
    handle Slug.slugify route_post_list (Sample.get None 40) s'
    = (Rendered "blog/post_list.html" (ctx_posts posts), s') ∧
    row ∈ posts ∧ content row = "Done.".
Proof.
  destruct (edit_status_controls_listing Slug.slugify Sample.two_posts 2
              Sample.work_in_progress Sample.alice
              (Sample.submit Sample.alice "Work in progress" "Done." "published" 30)
              (Sample.get None 40))
    as (row & s' & posts & Hedit & Hrow & Hlist & Hlisted).
  - apply wf_two_posts.
  - by_evaluation.
  - by_evaluation.
  - by_evaluation.
  - by_evaluation.
  - by_evaluation.
  - by_decision
      (map_Forall (λ j q, j ≠ 2%nat → slug q ≠ Slug.slugify "Work in progress")
         (rows Sample.two_posts)).
  - exists row, s', posts. split; [exact Hedit|]. split; [exact Hlist|].
    split; [apply Hlisted; by_evaluation|].
    revert Hedit Hrow. vm_compute. intros [= <-]. vm_compute.
    by intros [= <-].
Defined.

Lemma author_created_at_never_change_witness :
  rows (serve Slug.slugify
          [(route_post_edit "hello-world",
            Sample.submit Sample.alice "Hello Again" "Edited." "draft" 30);
           (route_post_create,
            Sample.submit Sample.bob "Second opinion" "By Bob." "published" 40)]
          Sample.two_posts).2 !! 1%nat = Some Sample.hello_again ∧
  pk Sample.hello_again = pk Sample.hello_world ∧
  author Sample.hello_again = author Sample.hello_world ∧
  created_at Sample.hello_again = created_at Sample.hello_world.
Proof.
  assert (rows (serve Slug.slugify
            [(route_post_edit "hello-world",
              Sample.submit Sample.alice "Hello Again" "Edited." "draft" 30);
             (route_post_create,
              Sample.submit Sample.bob "Second opinion" "By Bob." "published" 40)]
            Sample.two_posts).2 !! 1%nat = Some Sample.hello_again) as Hstored
    by by_evaluation.
  split; [exact Hstored|].
  refine (author_created_at_never_change Slug.slugify _ Sample.two_posts 1
            Sample.hello_world Sample.hello_again wf_two_posts _ Hstored).
  by_evaluation.
Defined.

Lemma request_touches_one_row_witness :
  ∃ k, ∀ j, j ≠ k →
    rows (handle Slug.slugify (route_post_delete "hello-world")
            (Sample.post Sample.alice 30) Sample.two_posts).2 !! j
    = rows Sample.two_posts !! j.
Proof.
  exact (request_touches_one_row Slug.slugify (route_post_delete "hello-world")
           (Sample.post Sample.alice 30) Sample.two_posts wf_two_posts).
Defined.

Lemma slug_free_after_delete_witness :
  ∃ s' row,
    handle Slug.slugify (route_post_delete "hello-world")
      (Sample.post Sample.alice 30) Sample.two_posts
    = (Redirect "my_posts" "Post deleted successfully!", s') ∧
    handle Slug.slugify route_post_create
      (Sample.submit Sample.bob "Hello World" "Bob's turn." "published" 40) s'
    = (Redirect "my_posts" "Post created successfully!",
       {| rows := <[3%nat := row]> (delete 1%nat (rows Sample.two_posts));
          next_id := 4 |}) ∧
    author row = Some 2%nat.
Proof.
  destruct (slug_free_after_delete Slug.slugify Sample.two_posts 1
              Sample.hello_world Sample.alice Sample.bob
              (Sample.post Sample.alice 30)
              (Sample.submit Sample.bob "Hello World" "Bob's turn." "published" 40))
    as (s' & row & Hdelete & Hcreate & _ & _ & _ & Hauthor).
  - apply wf_two_posts.
  - by_evaluation.
  - by_evaluation.
  - by_evaluation.
  - by_evaluation.
  - by_evaluation.
  - by_evaluation.
  - by_evaluation.
  - by_evaluation.
  - exists s', row. split; [exact Hdelete|]. split; [exact Hcreate|exact Hauthor].
Defined.

Lemma served_slugs_unique_witness :
  pk Sample.hello_world = Some 1%nat ∧
  (slug Sample.hello_world = slug Sample.work_in_progress →
   1%nat = 2%nat ∧ Sample.hello_world = Sample.work_in_progress).
Proof.
  apply (served_slugs_unique Slug.slugify
           [(route_post_create,
             Sample.submit Sample.alice "Hello World" "First post." "published" 10);
            (route_post_create,
             Sample.submit Sample.alice "Work in progress" "Not yet." "draft" 20)]);
    by_evaluation.
Defined.
